(** * aos-gpt front-end: a shallow embedding of its three source files

  - [src/lib/components/common/FullHeightIframe.svelte]: the sandboxed
    iframe widget (sandbox attribute, helper-script injection, same-origin
    measuring, corner drag, [postMessage] contract);
  - the sign-in / sign-up page ([setSessionUser], [signInHandler],
    [signUpHandler]);
  - [src/lib/i18n/index.ts]: the i18n store wrapper.

  Every definition is a transcription of the source function of the same
  name.  Browser objects the code only reads (DOM elements, mouse events,
  the outcome of a dynamic [import] or of an API call) are inputs of the
  functions. *)

From stdpp Require Import base option list strings gmap.
From Stdlib Require Import ZArith Lia Ascii.

Local Open Scope string_scope.
Local Open Scope list_scope.
Local Open Scope Z_scope.

(** ** The fragment of JavaScript the sources use *)

Module JS.

(** A JavaScript [number].  The finite numbers the component computes
    with are pixel counts ([scrollHeight], [offsetWidth], pointer
    coordinates, posted heights); they are kept as integers, on which the
    additions and comparisons below are exact.  [NaN] and the two infinities
    are kept apart: [typeof] calls them numbers, and [Math.max] and the
    comparisons treat them specially. *)
Inductive number : Set :=
| NaN
| NegInfinity
| Finite (z : Z)
| Infinity.

(** [a + b] *)
Definition add (a b : number) : number :=
  match a, b with
  | NaN, _ | _, NaN => NaN
  | Infinity, NegInfinity | NegInfinity, Infinity => NaN
  | Infinity, _ | _, Infinity => Infinity
  | NegInfinity, _ | _, NegInfinity => NegInfinity
  | Finite x, Finite y => Finite (x + y)
  end.

Definition neg (a : number) : number :=
  match a with
  | NaN => NaN
  | NegInfinity => Infinity
  | Finite x => Finite (- x)
  | Infinity => NegInfinity
  end.

(** [a - b] *)
Definition sub (a b : number) : number := add a (neg b).

(** [a < b]: false as soon as one side is [NaN]. *)
Definition lt (a b : number) : bool :=
  match a, b with
  | NaN, _ | _, NaN => false
  | _, NegInfinity => false
  | NegInfinity, _ => true
  | Infinity, _ => false
  | _, Infinity => true
  | Finite x, Finite y => x <? y
  end.

(** [a > b] *)
Definition gt (a b : number) : bool := lt b a.

(** [Math.max(a, b)]: [NaN] as soon as one argument is [NaN]. *)
Definition Math_max (a b : number) : number :=
  match a, b with
  | NaN, _ | _, NaN => NaN
  | _, _ => if lt a b then b else a
  end.

(** ToBoolean on a number: [0] and [NaN] are falsy. *)
Definition number_truthy (a : number) : bool :=
  match a with
  | NaN => false
  | Finite z => negb (z =? 0)
  | _ => true
  end.

(** ToBoolean on a string: only the empty string is falsy. *)
Definition string_truthy (s : string) : bool :=
  match s with
  | EmptyString => false
  | String _ _ => true
  end.

(** Structured data as [postMessage] delivers it. *)
#[warnings="-register-all"]
Inductive value : Type :=
| VUndefined
| VNull
| VBool (b : bool)
| VNumber (n : number)
| VString (s : string)
| VObject (props : list (string * value)).

(** ToBoolean *)
Definition truthy (v : value) : bool :=
  match v with
  | VUndefined | VNull => false
  | VBool b => b
  | VNumber n => number_truthy n
  | VString s => string_truthy s
  | VObject _ => true
  end.

(** Own-property lookup in an object given as its list of properties
    (the keys of an object are distinct; the first binding is taken). *)
Fixpoint lookup_prop (k : string) (props : list (string * value)) : value :=
  match props with
  | [] => VUndefined
  | (k', v) :: rest => if String.eqb k k' then v else lookup_prop k rest
  end.

(** [v?.k].  Primitives carry none of the keys the component reads. *)
Definition get (v : value) (k : string) : value :=
  match v with
  | VObject props => lookup_prop k props
  | _ => VUndefined
  end.

(** [a || b] *)
Definition or_else (a b : value) : value := if truthy a then a else b.

(** [a ?? b] *)
Definition nullish (a b : value) : value :=
  match a with
  | VUndefined | VNull => b
  | _ => a
  end.

(** [v === s] for a string literal [s] *)
Definition is_string (v : value) (s : string) : bool :=
  match v with
  | VString s' => String.eqb s' s
  | _ => false
  end.

(** [typeof v === 'number'] *)
Definition typeof_number (v : value) : option number :=
  match v with
  | VNumber n => Some n
  | _ => None
  end.

(** *** Strings *)

Definition quote : string := String "034"%char EmptyString.
Definition nl : string := String "010"%char EmptyString.
Definition dollar : ascii := "$"%char.

(** StringIndexOf from position 0: the least index at which [needle]
    occurs in [hay]. *)
Fixpoint indexOf (needle hay : string) : option nat :=
  if String.prefix needle hay then Some 0%nat
  else match hay with
       | EmptyString => None
       | String _ rest => S <$> indexOf needle rest
       end.

(** [hay.includes(needle)] *)
Definition includes (needle hay : string) : bool :=
  match indexOf needle hay with
  | Some _ => true
  | None => false
  end.

(** [String.prototype.slice]-like helpers on code units. *)
Fixpoint take (n : nat) (s : string) : string :=
  match n, s with
  | S n', String c rest => String c (take n' rest)
  | _, _ => EmptyString
  end.

Fixpoint drop (n : nat) (s : string) : string :=
  match n, s with
  | S n', String _ rest => drop n' rest
  | _, _ => s
  end.

(** GetSubstitution for a string pattern (no capture groups): in the
    replacement text [$$] stands for a dollar sign, [$&] for the match,
    [$`] for what precedes it and [$'] for what follows; any other use of
    the dollar sign is literal. *)
Fixpoint getSubstitution (matched before after template : string) : string :=
  match template with
  | EmptyString => EmptyString
  | String c rest =>
      if Ascii.eqb c dollar then
        match rest with
        | String d rest' =>
            if Ascii.eqb d "$"%char then String dollar (getSubstitution matched before after rest')
            else if Ascii.eqb d "&"%char then matched +:+ getSubstitution matched before after rest'
            else if Ascii.eqb d "`"%char then before +:+ getSubstitution matched before after rest'
            else if Ascii.eqb d "'"%char then after +:+ getSubstitution matched before after rest'
            else String c (getSubstitution matched before after rest)
        | EmptyString => String c EmptyString
        end
      else String c (getSubstitution matched before after rest)
  end.

(** [str.replace(pattern, replacement)] with a string pattern: only the
    first occurrence is replaced. *)
Definition replace (pattern replacement str : string) : string :=
  match indexOf pattern str with
  | None => str
  | Some pos =>
      let before := take pos str in
      let after := drop (pos + String.length pattern) str in
      before +:+ getSubstitution pattern before after replacement +:+ after
  end.

(** [parts.join(sep)] on an array of strings *)
Fixpoint join (sep : string) (parts : list string) : string :=
  match parts with
  | [] => EmptyString
  | [p] => p
  | p :: rest => p +:+ sep +:+ join sep rest
  end.

(** How a statement completes: normally, or by throwing. *)
Inductive completion (E A : Type) : Type :=
| Normal (a : A)
| Throw (e : E).
Arguments Normal {E A} a.
Arguments Throw {E A} e.

End JS.

(** ** [FullHeightIframe.svelte] *)

Module FullHeightIframe.
Import JS.

(** *** Props *)

Record Props : Type := {
  initialHeight : option number;
  allowScripts : bool;
  allowForms : bool;
  allowSameOrigin : bool;
  allowPopups : bool;
  allowDownloads : bool;
  payload : value
}.

(** The defaults of the [export let] declarations. *)
Definition defaultProps : Props := {|
  initialHeight := None;
  allowScripts := true;
  allowForms := false;
  allowSameOrigin := false;
  allowPopups := false;
  allowDownloads := true;
  payload := VNull
|}.

(** *** The sandbox attribute *)

(** [flag && 'token']: [false] or the token. *)
Definition and_token (flag : bool) (token : string) : option string :=
  if flag then Some token else None.

(** [.filter(Boolean)] on an array of [false | string]. *)
Fixpoint filter_Boolean (xs : list (option string)) : list string :=
  match xs with
  | [] => []
  | None :: rest => filter_Boolean rest
  | Some s :: rest =>
      if string_truthy s then s :: filter_Boolean rest else filter_Boolean rest
  end.

(** [$: sandbox = [...].filter(Boolean).join(' ') || undefined];
    [None] is [undefined]: the attribute is absent. *)
Definition sandbox (p : Props) : option string :=
  let joined :=
    join " "
      (filter_Boolean
         [ and_token (allowScripts p) "allow-scripts";
           and_token (allowForms p) "allow-forms";
           and_token (allowSameOrigin p) "allow-same-origin";
           and_token (allowPopups p) "allow-popups";
           and_token (allowDownloads p) "allow-downloads" ]) in
  if string_truthy joined then Some joined else None.

(** *** Helper-script injection *)

Definition alpineDirectives : list string :=
  [ "x-data"; "x-init"; "x-show"; "x-bind"; "x-on"; "x-text"; "x-html";
    "x-model"; "x-modelable"; "x-ref"; "x-for"; "x-if"; "x-effect";
    "x-transition"; "x-cloak"; "x-ignore"; "x-teleport"; "x-id" ].

Definition chartJsDirectives : list string := [ "new Chart("; "Chart." ].

(** [directives.some((dir) => html.includes(dir))] *)
Definition some_included (directives : list string) (html : string) : bool :=
  existsb (fun dir => includes dir html) directives.

(** What the browser answers to the calls of [processHtmlForDeps]: the
    two dynamic imports resolve or reject, and [URL.createObjectURL] names
    the blob made of the Alpine bundle. *)
Record Loader : Type := {
  import_alpine : completion string string;
  createObjectURL : string -> completion string string;
  import_chart : completion string unit
}.

(** What [processHtmlForDeps] does besides returning. *)
Inductive Effect : Type :=
| ImportAlpine
| ImportChart
| SetWindowChart
| ConsoleError (message error : string).

Definition alpineTag (alpineUrl : string) : string :=
  "<script src=" +:+ quote +:+ alpineUrl +:+ quote +:+ " defer></script>".

Definition chartTag : string :=
  "<script>" +:+ nl +:+
  "window.Chart = parent.Chart; // Chart previously assigned on parent" +:+ nl +:+
  "</script>".

(** The first [try] block: the tags pushed and the effects. *)
Definition alpineStep (ld : Loader) (html : string) : list string * list Effect :=
  if some_included alpineDirectives html then
    match import_alpine ld with
    | Normal alpineCode =>
        match createObjectURL ld alpineCode with
        | Normal alpineUrl => ([alpineTag alpineUrl], [ImportAlpine])
        | Throw error =>
            ([], [ImportAlpine; ConsoleError "Error processing Alpine for iframe:" error])
        end
    | Throw error =>
        ([], [ImportAlpine; ConsoleError "Error processing Alpine for iframe:" error])
    end
  else ([], []).

(** The second [try] block. *)
Definition chartStep (ld : Loader) (html : string) : list string * list Effect :=
  if some_included chartJsDirectives html then
    match import_chart ld with
    | Normal _ => ([chartTag], [ImportChart; SetWindowChart])
    | Throw error =>
        ([], [ImportChart; ConsoleError "Error processing Chart.js for iframe:" error])
    end
  else ([], []).

(** The [scriptTags] array once both blocks have run. *)
Definition scriptTags (ld : Loader) (html : string) : list string :=
  (alpineStep ld html).1 ++ (chartStep ld html).1.

(** The last part of [processHtmlForDeps]: where the tags go. *)
Definition inject (tags : list string) (html : string) : string :=
  match tags with
  | [] => html
  | _ =>
      let tags := join nl tags in
      if includes "</head>" html then
        replace "</head>" (tags +:+ nl +:+ "</head>") html
      else if includes "</body>" html then
        replace "</body>" (tags +:+ nl +:+ "</body>") html
      else tags +:+ nl +:+ html
  end.

(** [processHtmlForDeps(html)]: the string the promise resolves to, and
    the effects in order. *)
Definition processHtmlForDeps (p : Props) (ld : Loader) (html : string)
  : string * list Effect :=
  if negb (allowSameOrigin p) then (html, [])
  else
    let a := alpineStep ld html in
    let c := chartStep ld html in
    (inject (a.1 ++ c.1) html, a.2 ++ c.2).

(** *** DOM objects the component reads *)

Record Element : Type := { scrollHeight : Z }.

Record Document : Type := {
  documentElement : option Element;
  body : option Element
}.

(** A browsing context.  Reading [document] of a cross-origin one throws
    a [SecurityError]. *)
Record Window : Type := {
  windowId : nat;
  document : completion string Document
}.

Record HTMLIFrameElement : Type := {
  contentDocument : option Document;
  contentWindow : option Window
}.

Record HTMLDivElement : Type := { offsetWidth : Z }.

Record MouseEvent : Type := { clientX : Z; clientY : Z }.

(** [e.source] is a window or [null]; [e.data] is any cloned value. *)
Record MessageEvent : Type := {
  source : option nat;
  data : value
}.

(** *** Component state *)

Record State : Type := {
  iframe : option HTMLIFrameElement;
  container : option HTMLDivElement;
  containerHeight : number;
  containerWidth : option number;
  isDragging : bool;
  dragStartX : number;
  dragStartY : number;
  dragStartHeight : number;
  dragStartWidth : number;
  (** [document.body.style.userSelect] and [.cursor] *)
  bodyUserSelect : string;
  bodyCursor : string;
  (** whether [onDragMove] and [onDragEnd] listen on [document] *)
  documentListeners : bool;
  (** messages posted to the iframe's window, oldest first *)
  posted : list (nat * value);
  (** the argument lists of the calls of [console.log], oldest first *)
  logged : list (list value)
}.

(** The [let] declarations of the script block. *)
Definition initialState (p : Props) : State := {|
  iframe := None;
  container := None;
  containerHeight := default (Finite 650) (initialHeight p);
  containerWidth := None;
  isDragging := false;
  dragStartX := Finite 0;
  dragStartY := Finite 0;
  dragStartHeight := Finite 0;
  dragStartWidth := Finite 0;
  bodyUserSelect := EmptyString;
  bodyCursor := EmptyString;
  documentListeners := false;
  posted := [];
  logged := []
|}.

Definition set_containerHeight (h : number) (s : State) : State := {|
  iframe := iframe s;
  container := container s;
  containerHeight := h;
  containerWidth := containerWidth s;
  isDragging := isDragging s;
  dragStartX := dragStartX s;
  dragStartY := dragStartY s;
  dragStartHeight := dragStartHeight s;
  dragStartWidth := dragStartWidth s;
  bodyUserSelect := bodyUserSelect s;
  bodyCursor := bodyCursor s;
  documentListeners := documentListeners s;
  posted := posted s;
  logged := logged s
|}.

Definition set_containerWidth (w : option number) (s : State) : State := {|
  iframe := iframe s;
  container := container s;
  containerHeight := containerHeight s;
  containerWidth := w;
  isDragging := isDragging s;
  dragStartX := dragStartX s;
  dragStartY := dragStartY s;
  dragStartHeight := dragStartHeight s;
  dragStartWidth := dragStartWidth s;
  bodyUserSelect := bodyUserSelect s;
  bodyCursor := bodyCursor s;
  documentListeners := documentListeners s;
  posted := posted s;
  logged := logged s
|}.

(** [target?.postMessage(message, '*')] *)
Definition postMessage (target : option Window) (message : value) (s : State) : State :=
  match target with
  | None => s
  | Some w => {|
      iframe := iframe s;
      container := container s;
      containerHeight := containerHeight s;
      containerWidth := containerWidth s;
      isDragging := isDragging s;
      dragStartX := dragStartX s;
      dragStartY := dragStartY s;
      dragStartHeight := dragStartHeight s;
      dragStartWidth := dragStartWidth s;
      bodyUserSelect := bodyUserSelect s;
      bodyCursor := bodyCursor s;
      documentListeners := documentListeners s;
      posted := posted s ++ [(windowId w, message)];
      logged := logged s
    |}
  end.

(** [console.log(...args)] *)
Definition console_log (args : list value) (s : State) : State := {|
  iframe := iframe s;
  container := container s;
  containerHeight := containerHeight s;
  containerWidth := containerWidth s;
  isDragging := isDragging s;
  dragStartX := dragStartX s;
  dragStartY := dragStartY s;
  dragStartHeight := dragStartHeight s;
  dragStartWidth := dragStartWidth s;
  bodyUserSelect := bodyUserSelect s;
  bodyCursor := bodyCursor s;
  documentListeners := documentListeners s;
  posted := posted s;
  logged := logged s ++ [args]
|}.

(** *** Measuring same-origin content *)

(** [iframe.contentDocument || iframe.contentWindow?.document]; the
    second operand is evaluated only when the first is [null]. *)
Definition read_document (f : HTMLIFrameElement) : completion string (option Document) :=
  match contentDocument f with
  | Some doc => Normal (Some doc)
  | None =>
      match contentWindow f with
      | None => Normal None
      | Some w =>
          match document w with
          | Normal doc => Normal (Some doc)
          | Throw error => Throw error
          end
      end
  end.

(** [el?.scrollHeight ?? 0] *)
Definition scrollHeight_or_0 (el : option Element) : number :=
  match el with
  | Some el => Finite (scrollHeight el)
  | None => Finite 0
  end.

(** The body of the [try] block of [resizeSameOrigin]. *)
Definition resizeSameOrigin_try (f : HTMLIFrameElement) (s : State) : completion string State :=
  match read_document f with
  | Throw error => Throw error
  | Normal None => Normal s
  | Normal (Some doc) =>
      let h := Math_max (scrollHeight_or_0 (documentElement doc))
                        (scrollHeight_or_0 (body doc)) in
      if gt h (Finite 0) then Normal (set_containerHeight (add h (Finite 20)) s)
      else Normal s
  end.

(** [try { body } catch { }] *)
Definition try_catch_ignore (attempt : completion string State) (s : State)
  : completion string State :=
  match attempt with
  | Normal s' => Normal s'
  | Throw _ => Normal s
  end.

Definition resizeSameOrigin (s : State) : completion string State :=
  match iframe s with
  | None => Normal s
  | Some f => try_catch_ignore (resizeSameOrigin_try f s) s
  end.

(** *** Corner drag *)

Definition onDragStart (e : MouseEvent) (s : State) : State := {|
  iframe := iframe s;
  container := container s;
  containerHeight := containerHeight s;
  containerWidth :=
    match container s with
    | Some c =>
        if negb (from_option number_truthy false (containerWidth s))
        then Some (Finite (offsetWidth c))
        else containerWidth s
    | None => containerWidth s
    end;
  isDragging := true;
  dragStartX := Finite (clientX e);
  dragStartY := Finite (clientY e);
  dragStartHeight := containerHeight s;
  dragStartWidth :=
    match containerWidth s with
    | Some w => w
    | None =>
        match container s with
        | Some c => Finite (offsetWidth c)
        | None => Finite 800
        end
    end;
  bodyUserSelect := "none";
  bodyCursor := "nwse-resize";
  documentListeners := true;
  posted := posted s;
  logged := logged s
|}.

Definition onDragMove (e : MouseEvent) (s : State) : State :=
  if negb (isDragging s) then s
  else
    set_containerWidth
      (Some (Math_max (Finite 300)
               (add (dragStartWidth s) (sub (Finite (clientX e)) (dragStartX s)))))
      (set_containerHeight
         (Math_max (Finite 200)
            (add (dragStartHeight s) (sub (Finite (clientY e)) (dragStartY s))))
         s).

Definition onDragEnd (s : State) : State := {|
  iframe := iframe s;
  container := container s;
  containerHeight := containerHeight s;
  containerWidth := containerWidth s;
  isDragging := false;
  dragStartX := dragStartX s;
  dragStartY := dragStartY s;
  dragStartHeight := dragStartHeight s;
  dragStartWidth := dragStartWidth s;
  bodyUserSelect := EmptyString;
  bodyCursor := EmptyString;
  documentListeners := false;
  posted := posted s;
  logged := logged s
|}.

(** [bind:this={container}], and the browser laying the container out
    again: the element read by the next [onDragStart]. *)
Definition set_container (c : option HTMLDivElement) (s : State) : State := {|
  iframe := iframe s;
  container := c;
  containerHeight := containerHeight s;
  containerWidth := containerWidth s;
  isDragging := isDragging s;
  dragStartX := dragStartX s;
  dragStartY := dragStartY s;
  dragStartHeight := dragStartHeight s;
  dragStartWidth := dragStartWidth s;
  bodyUserSelect := bodyUserSelect s;
  bodyCursor := bodyCursor s;
  documentListeners := documentListeners s;
  posted := posted s;
  logged := logged s
|}.

(** What happens during a drag: [mousedown] on the grip, [mousemove] and
    [mouseup] on [document], which reach the component only while its
    listeners are registered, and the browser laying the page out. *)
Inductive DragEvent : Type :=
| MouseDown (e : MouseEvent)
| MouseMove (e : MouseEvent)
| MouseUp
| Layout (c : option HTMLDivElement).

Definition dragStep (s : State) (ev : DragEvent) : State :=
  match ev with
  | MouseDown e => onDragStart e s
  | MouseMove e => if documentListeners s then onDragMove e s else s
  | MouseUp => if documentListeners s then onDragEnd s else s
  | Layout c => set_container c s
  end.

(** The states the component goes through, one per event. *)
Fixpoint dragTrace (s : State) (evs : list DragEvent) : list State :=
  match evs with
  | [] => []
  | ev :: rest => let s' := dragStep s ev in s' :: dragTrace s' rest
  end.

(** *** Messages from the iframe *)

Definition pongAck : value := VObject [("type", VString "pong:ack")].

Definition payloadReply (requestId payload : value) : value :=
  VObject [("type", VString "payload"); ("requestId", requestId); ("payload", payload)].

Definition onMessage (p : Props) (e : MessageEvent) (s : State) : State :=
  match iframe s with
  | None => s
  | Some f =>
      if negb (bool_decide (source e = windowId <$> contentWindow f)) then s
      else
        let data := or_else (data e) (VObject []) in
        let s1 :=
          if is_string (get data "type") "iframe:height" then
            match typeof_number (get data "height") with
            | Some height => set_containerHeight (Math_max (Finite 200) height) s
            | None => s
            end
          else s in
        let s2 :=
          if is_string (get data "type") "pong" then
            postMessage (contentWindow f) pongAck
              (console_log [VString "Received pong from iframe:"; data] s1)
          else s1 in
        if is_string (get data "type") "payload" then
          postMessage (contentWindow f)
            (payloadReply (nullish (get data "requestId") VNull) (payload p)) s2
        else s2
  end.

(** The component handling a sequence of [message] events. *)
Definition onMessages (p : Props) (s : State) (evs : list MessageEvent) : State :=
  fold_left (fun s e => onMessage p e s) evs s.

End FullHeightIframe.

(** ** [src/lib/i18n/index.ts] *)

Module I18n.

(** The argument of the [loaded] event: for each language, the
    namespaces that were loaded. *)
Abbreviation Resources := (gmap string (gmap string bool)).

(** The events an i18next instance emits. *)
Inductive Event : Type :=
| Initialized
| Loaded (resources : Resources)
| FailedLoading (lng ns msg : string)
| MissingKey (key : string)
| Added (lng ns : string)
| Removed (lng ns : string)
| LanguageChanged (lng : string).

Definition eventName (ev : Event) : string :=
  match ev with
  | Initialized => "initialized"
  | Loaded _ => "loaded"
  | FailedLoading _ _ _ => "failedLoading"
  | MissingKey _ => "missingKey"
  | Added _ _ => "added"
  | Removed _ _ => "removed"
  | LanguageChanged _ => "languageChanged"
  end.

(** The two svelte stores of the module: [i18nWritable] always holds the
    same i18next instance, so only the number of times it was set is
    kept; [isLoading] holds a boolean. *)
Record Stores : Type := {
  i18nWritable_sets : nat;
  isLoading : bool
}.

Definition Listener : Type := Event -> Stores -> Stores.

(** The listeners registered on the i18next instance with [i18n.on], in
    registration order. *)
Definition Emitter : Type := list (string * Listener).

(** [i18n.on(name, listener)] *)
Definition on (name : string) (listener : Listener) (i18n : Emitter) : Emitter :=
  i18n ++ [(name, listener)].

(** [i18n.emit(name, ...args)]: every listener registered under the
    event's name runs, in order. *)
Definition emit (i18n : Emitter) (ev : Event) (st : Stores) : Stores :=
  fold_left
    (fun st (o : string * Listener) =>
       if String.eqb o.1 (eventName ev) then o.2 ev st else st)
    i18n st.

(** [i18nWritable.set(i18n)] *)
Definition i18nWritable_set : Listener :=
  fun _ st => {| i18nWritable_sets := S (i18nWritable_sets st); isLoading := isLoading st |}.

(** [isLoading.set(b)] *)
Definition isLoading_set (b : bool) (st : Stores) : Stores :=
  {| i18nWritable_sets := i18nWritable_sets st; isLoading := b |}.

Definition createI18nStore (i18n : Emitter) : Emitter :=
  on "languageChanged" i18nWritable_set
    (on "added" i18nWritable_set
       (on "loaded" i18nWritable_set
          (on "initialized" i18nWritable_set i18n))).

(** [Object.keys(resources).length === 0] *)
Definition no_keys (resources : Resources) : bool :=
  bool_decide (length (elements (dom resources)) = 0%nat).

Definition createIsLoadingStore (i18n : Emitter) : Emitter :=
  on "failedLoading" (fun _ st => isLoading_set true st)
    (on "loaded"
       (fun ev st =>
          match ev with
          | Loaded resources => isLoading_set (no_keys resources) st
          | _ => st
          end)
       i18n).

(** [writable(i18n)] and [writable(false)] *)
Definition initialStores : Stores := {| i18nWritable_sets := 0; isLoading := false |}.

(** The module's top level: both wrappers subscribe to [i18next]. *)
Definition i18next : Emitter := createIsLoadingStore (createI18nStore []).

Definition run (evs : list Event) : Stores := fold_left (fun st ev => emit i18next ev st) evs initialStores.

End I18n.

(** ** The sign-in / sign-up page *)

Module Auth.
Import JS.

(** The session user the auth API answers with.  [token] is [None] when
    the field is absent. *)
Record SessionUser : Type := {
  id : string;
  token : option string
}.

(** [$config?.features?.enable_signup_password_confirmation] *)
Record Config : Type := { enable_signup_password_confirmation : bool }.

Inductive Mode : Type := signin | signup.

(** The form fields and the page URL, which the handlers only read. *)
Record Form : Type := {
  mode : Mode;
  name : string;
  email : string;
  password : string;
  confirmPassword : string;
  (** [$page.url.searchParams.get('redirect')] *)
  redirectParam : option string
}.

(** The collaborators of the page: API client functions, whose promises
    resolve or reject, and pure helpers. *)
Record Api : Type := {
  userSignIn : string -> string -> completion string (option SessionUser);
  userSignUp : string -> string -> string -> string -> completion string (option SessionUser);
  getBackendConfig : completion string Config;
  getUserTimezone : string;
  generateInitialsImage : string -> string;
  (** [$i18n.t] *)
  t : string -> string
}.

(** What the handlers do to the outside, in order. *)
Inductive Effect : Type :=
| ConsoleLog (u : SessionUser)
| ToastSuccess (message : string)
| ToastError (message : string)
| SocketEmit (event : string) (authToken : option string)
| UpdateUserTimezone (authToken timezone : string)
| Goto (url : string).

(** What the handlers write: [localStorage], the [user] and [config]
    stores ([None] is [undefined]), and the effects so far. *)
Record Page : Type := {
  localStorage : gmap string string;
  user : option SessionUser;
  config : option Config;
  effects : list Effect
}.

(** An [async] function body: it reads and writes the page and either
    returns or rejects. *)
Definition Async (A : Type) : Type := Page -> completion string A * Page.

#[export] Instance Async_ret : MRet Async :=
  fun A a pg => (Normal a, pg).

#[export] Instance Async_bind : MBind Async :=
  fun A B k m pg =>
    match m pg with
    | (Normal a, pg') => k a pg'
    | (Throw e, pg') => (Throw e, pg')
    end.

(** [await promise] *)
Definition await {A : Type} (promise : completion string A) : Async A :=
  fun pg => (promise, pg).

(** [promise.catch(handler)] *)
Definition catch {A : Type} (m : Async A) (handler : string -> Async A) : Async A :=
  fun pg =>
    match m pg with
    | (Normal a, pg') => (Normal a, pg')
    | (Throw e, pg') => handler e pg'
    end.

Definition effect (e : Effect) : Async unit :=
  fun pg => (Normal tt,
             {| localStorage := localStorage pg; user := user pg;
                config := config pg; effects := effects pg ++ [e] |}).

(** [localStorage[key] = v] *)
Definition localStorage_set (key v : string) : Async unit :=
  fun pg => (Normal tt,
             {| localStorage := <[key := v]> (localStorage pg); user := user pg;
                config := config pg; effects := effects pg |}).

(** [localStorage.removeItem(key)] *)
Definition localStorage_removeItem (key : string) : Async unit :=
  fun pg => (Normal tt,
             {| localStorage := delete key (localStorage pg); user := user pg;
                config := config pg; effects := effects pg |}).

(** [user.set(u)] *)
Definition user_set (u : SessionUser) : Async unit :=
  fun pg => (Normal tt,
             {| localStorage := localStorage pg; user := Some u;
                config := config pg; effects := effects pg |}).

(** [config.set(c)] *)
Definition config_set (c : Config) : Async unit :=
  fun pg => (Normal tt,
             {| localStorage := localStorage pg; user := user pg;
                config := Some c; effects := effects pg |}).

(** [$config] *)
Definition get_config : Async (option Config) := fun pg => (Normal (config pg), pg).

Definition when (b : bool) (m : Async unit) : Async unit :=
  if b then m else mret tt.

(** ToBoolean on [sessionUser.token] *)
Definition token_truthy (u : SessionUser) : bool :=
  from_option string_truthy false (token u).

(** [a || b] on strings that may be [null] *)
Definition string_or (a : option string) (b : string) : string :=
  match a with
  | Some s => if string_truthy s then s else b
  | None => b
  end.

Definition setSessionUser (api : Api) (form : Form)
    (sessionUser : option SessionUser) (redirectPath : option string) : Async unit :=
  match sessionUser with
  | None => mret tt
  | Some sessionUser =>
      effect (ConsoleLog sessionUser);;
      effect (ToastSuccess (t api "You're now logged in."));;
      when (token_truthy sessionUser)
        (localStorage_set "token" (default EmptyString (token sessionUser)));;
      effect (SocketEmit "user-join" (token sessionUser));;
      user_set sessionUser;;
      backendConfig ← await (getBackendConfig api);
      config_set backendConfig;;
      let timezone := getUserTimezone api in
      when (token_truthy sessionUser && string_truthy timezone)
        (effect (UpdateUserTimezone (default EmptyString (token sessionUser)) timezone));;
      let redirectPath :=
        if from_option string_truthy false redirectPath
        then default EmptyString redirectPath
        else string_or (redirectParam form) "/" in
      effect (Goto redirectPath);;
      localStorage_removeItem "redirectPath"
  end.

Definition signInHandler (api : Api) (form : Form) : Async unit :=
  sessionUser ←
    catch (await (userSignIn api (email form) (password form)))
          (fun error => effect (ToastError error);; mret None);
  setSessionUser api form sessionUser None.

Definition signUpHandler (api : Api) (form : Form) : Async unit :=
  cfg ← get_config;
  if from_option enable_signup_password_confirmation false cfg
     && negb (String.eqb (password form) (confirmPassword form))
  then effect (ToastError (t api "Passwords do not match."))
  else
    sessionUser ←
      catch (await (userSignUp api (name form) (email form) (password form)
                      (generateInitialsImage api (name form))))
            (fun error => effect (ToastError error);; mret None);
    setSessionUser api form sessionUser None.

Definition submitHandler (api : Api) (form : Form) : Async unit :=
  match mode form with
  | signin => signInHandler api form
  | signup => signUpHandler api form
  end.

End Auth.

(** ** The sign-in / sign-up page: [onMount] *)

Module AuthMount.
Import JS Auth.

(** The other parameters of the page URL:
    [$page.url.searchParams.get('error')] and [.get('form')]. *)
Record Query : Type := {
  errorParam : option string;
  formParam : option string
}.

(** The local variables [mode] and [loaded] of the page. *)
Record Local : Type := {
  currentMode : Mode;
  loaded : bool
}.

(** [localStorage.setItem(key, v)] *)
Definition localStorage_setItem (key v : string) : Async unit := localStorage_set key v.

(** [$user] *)
Definition get_user : Async (option SessionUser) := fun pg => (Normal (user pg), pg).

(** The callback given to [onMount]. *)
Definition onMount (form : Form) (q : Query) (l : Local) : Async Local :=
  let redirectPath := redirectParam form in
  u ← get_user;
  (match u with
   | Some _ => effect (Goto (string_or redirectPath "/"))
   | None =>
       when (from_option string_truthy false redirectPath)
         (localStorage_setItem "redirectPath" (default EmptyString redirectPath))
   end);;
  when (from_option string_truthy false (errorParam q))
    (effect (ToastError (default EmptyString (errorParam q))));;
  let mode :=
    match formParam q with
    | Some f => if String.eqb f "signup" then signup else currentMode l
    | None => currentMode l
    end in
  mret {| currentMode := mode; loaded := true |}.

End AuthMount.

(** ** [FullHeightIframe.svelte]: source selection, observer, timers *)

Module Embed.
Import JS FullHeightIframe.

(** *** URL or raw HTML *)

(** Canonicalize of a case-insensitive regular expression, on the
    characters that can match a letter of the pattern: a lower-case ASCII
    letter stands for its upper-case one. *)
Definition canonicalize (c : ascii) : ascii :=
  let n := nat_of_ascii c in
  if ((97 <=? n) && (n <=? 122))%nat then ascii_of_nat (n - 32) else c.

(** Matching the characters of [pattern] at the start of [s], letter case
    ignored: what follows the match. *)
Fixpoint strip_ci (pattern s : string) : option string :=
  match pattern, s with
  | EmptyString, _ => Some s
  | String a pattern', String b s' =>
      if Ascii.eqb (canonicalize a) (canonicalize b) then strip_ci pattern' s' else None
  | String _ _, EmptyString => None
  end.

(** Going on with [pattern] after a partial match. *)
Definition and_then (o : option string) (pattern : string) : option string :=
  match o with
  | Some rest => strip_ci pattern rest
  | None => None
  end.

Definition matched (o : option string) : bool :=
  match o with
  | Some _ => true
  | None => false
  end.

(** [/^(https?:)?\/\//i.test(s)]: the alternatives in the order the
    matcher tries them. *)
Definition test_url (s : string) : bool :=
  matched (and_then (and_then (and_then (strip_ci "http" s) "s") ":") "//")
  || matched (and_then (and_then (strip_ci "http" s) ":") "//")
  || matched (strip_ci "//" s).

(** [$: isUrl = typeof src === 'string' && /^(https?:)?\/\//i.test(src)] *)
Definition isUrl (src : option string) : bool :=
  match src with
  | Some s => test_url s
  | None => false
  end.

(** *** Timers *)

(** [resizeTimeout] and the timers that are pending, each with its handle
    and its delay; every timer of the component calls [resizeSameOrigin].
    [nextTimer] is the handle the next [setTimeout] returns. *)
Record Timers : Type := {
  resizeTimeout : option nat;
  pending : list (nat * Z);
  nextTimer : nat
}.

Definition setTimeout (delay : Z) (t : Timers) : nat * Timers :=
  (nextTimer t,
   {| resizeTimeout := resizeTimeout t;
      pending := pending t ++ [(nextTimer t, delay)];
      nextTimer := S (nextTimer t) |}).

Definition clearTimeout (handle : nat) (t : Timers) : Timers := {|
  resizeTimeout := resizeTimeout t;
  pending := List.filter (fun x => negb (x.1 =? handle)%nat) (pending t);
  nextTimer := nextTimer t
|}.

(** [if (resizeTimeout) clearTimeout(resizeTimeout)] *)
Definition clear_resizeTimeout (t : Timers) : Timers :=
  match resizeTimeout t with
  | Some h => if (h =? 0)%nat then t else clearTimeout h t
  | None => t
  end.

(** The callback of the [MutationObserver]. *)
Definition onMutation (t : Timers) : Timers :=
  let t1 := clear_resizeTimeout t in
  let ht := setTimeout 100 t1 in
  {| resizeTimeout := Some ht.1; pending := pending ht.2; nextTimer := nextTimer ht.2 |}.

(** [for (const delay of [200, 500, 1000, 2000]) setTimeout(resizeSameOrigin, delay)] *)
Definition retryDelays : list Z := [200; 500; 1000; 2000].

Definition scheduleRetries (t : Timers) : Timers :=
  fold_left (fun t delay => (setTimeout delay t).2) retryDelays t.

(** *** The whole component *)

(** [observerInstance], by number, the observers that are connected, and
    the number of the next observer to be created. *)
Record Observers : Type := {
  observerInstance : option nat;
  observing : list nat;
  nextObserver : nat
}.

Record Widget : Type := {
  state : State;
  src : option string;
  iframeSrc : option string;
  iframeDoc : option string;
  observers : Observers;
  timers : Timers;
  (** whether [onMessage] listens on [window] *)
  messageListener : bool
}.


(** [observerInstance.disconnect()] *)
Definition disconnect (o : nat) (obs : Observers) : Observers := {|
  observerInstance := observerInstance obs;
  observing := List.filter (fun x => negb (x =? o)%nat) (observing obs);
  nextObserver := nextObserver obs
|}.

(** [const setIframeSrc = async () => ...], run to its end. *)
Definition setIframeSrc (p : Props) (ld : Loader) (w : Widget) : Widget * list Effect :=
  let st := set_containerHeight (default (Finite 650) (initialHeight p)) (state w) in
  let obs :=
    match observerInstance (observers w) with
    | Some o =>
        {| observerInstance := None;
           observing := observing (disconnect o (observers w));
           nextObserver := nextObserver (observers w) |}
    | None => observers w
    end in
  if isUrl (src w) then
    ({| state := st; src := src w; iframeSrc := src w; iframeDoc := None;
        observers := obs; timers := timers w; messageListener := messageListener w |},
     [])
  else
    let processed := processHtmlForDeps p ld (default EmptyString (src w)) in
    ({| state := st; src := src w; iframeSrc := None; iframeDoc := Some processed.1;
        observers := obs; timers := timers w; messageListener := messageListener w |},
     processed.2).

(** The prop [src] changes: [$: if (src) { setIframeSrc(); }] *)
Definition srcChanged (p : Props) (ld : Loader) (newSrc : option string) (w : Widget)
  : Widget * list Effect :=
  let w' := {| state := state w; src := newSrc; iframeSrc := iframeSrc w;
               iframeDoc := iframeDoc w; observers := observers w;
               timers := timers w; messageListener := messageListener w |} in
  if from_option string_truthy false newSrc then setIframeSrc p ld w' else (w', []).



Definition observeIframeContent (w : Widget) : Widget :=
  match iframe (state w) with
  | None => w
  | Some f =>
      match read_document f with
      | Throw _ => w
      | Normal None => w
      | Normal (Some doc) =>
          match body doc with
          | None => w
          | Some _ =>
              let o := nextObserver (observers w) in
              {| state := state w; src := src w; iframeSrc := iframeSrc w;
                 iframeDoc := iframeDoc w;
                 observers := {| observerInstance := Some o;
                                 observing := observing (observers w) ++ [o];
                                 nextObserver := S o |};
                 timers := scheduleRetries (timers w);
                 messageListener := messageListener w |}
          end
      end
  end.

Definition set_state (st : State) (w : Widget) : Widget := {|
  state := st; src := src w; iframeSrc := iframeSrc w; iframeDoc := iframeDoc w;
  observers := observers w; timers := timers w; messageListener := messageListener w
|}.

Definition set_timers (t : Timers) (w : Widget) : Widget := {|
  state := state w; src := src w; iframeSrc := iframeSrc w; iframeDoc := iframeDoc w;
  observers := observers w; timers := t; messageListener := messageListener w
|}.

(** [document.removeEventListener('mousemove', onDragMove)] and the same
    for [mouseup]. *)
Definition remove_documentListeners (s : State) : State := {|
  iframe := iframe s;
  container := container s;
  containerHeight := containerHeight s;
  containerWidth := containerWidth s;
  isDragging := isDragging s;
  dragStartX := dragStartX s;
  dragStartY := dragStartY s;
  dragStartHeight := dragStartHeight s;
  dragStartWidth := dragStartWidth s;
  bodyUserSelect := bodyUserSelect s;
  bodyCursor := bodyCursor s;
  documentListeners := false;
  posted := posted s;
  logged := logged s
|}.

(** The callback given to [onMount]. *)
Definition onMount (w : Widget) : Widget := {|
  state := state w; src := src w; iframeSrc := iframeSrc w; iframeDoc := iframeDoc w;
  observers := observers w; timers := timers w; messageListener := true
|}.

(** The callback given to [onDestroy]. *)
Definition onDestroy (w : Widget) : Widget := {|
  state := remove_documentListeners (state w);
  src := src w; iframeSrc := iframeSrc w; iframeDoc := iframeDoc w;
  observers :=
    match observerInstance (observers w) with
    | Some o => disconnect o (observers w)
    | None => observers w
    end;
  timers := clear_resizeTimeout (timers w);
  messageListener := false
|}.

(** A timer expires: it leaves the pending ones and [resizeSameOrigin]
    runs. *)
Definition expire (handle : nat) (w : Widget) : Widget :=
  if existsb (fun x => (x.1 =? handle)%nat) (pending (timers w)) then
    let w' := set_timers (clearTimeout handle (timers w)) w in
    match resizeSameOrigin (state w') with
    | Normal st => set_state st w'
    | Throw _ => w'
    end
  else w.

(** What happens to a mounted component. *)
Inductive Event : Type :=
| SrcChanged (newSrc : option string)
| Loaded
| AnimationFrame
| Mutated (observer : nat)
| Expired (handle : nat)
| Message (e : MessageEvent)
| Drag (ev : DragEvent)
| Destroyed.

(** One event.  [onLoad] requests an animation frame for
    [resizeSameOrigin] and calls [observeIframeContent]: [Loaded] is the
    call, [AnimationFrame] the frame callback.  (Its last statement, which
    writes [args] into the window of the iframe, touches nothing of the
    component and is left out.)  A disconnected observer no longer calls
    back and a removed listener is no longer called. *)
Definition step (p : Props) (ld : Loader) (w : Widget) (ev : Event) : Widget :=
  match ev with
  | SrcChanged newSrc => (srcChanged p ld newSrc w).1
  | Loaded => observeIframeContent w
  | AnimationFrame =>
      match resizeSameOrigin (state w) with
      | Normal st => set_state st w
      | Throw _ => w
      end
  | Mutated o =>
      if existsb (Nat.eqb o) (observing (observers w))
      then set_timers (onMutation (timers w)) w
      else w
  | Expired h => expire h w
  | Message e => if messageListener w then set_state (onMessage p e (state w)) w else w
  | Drag ev => set_state (dragStep (state w) ev) w
  | Destroyed => onDestroy w
  end.

Definition run (p : Props) (ld : Loader) (w : Widget) (evs : list Event) : Widget :=
  fold_left (step p ld) evs w.

End Embed.

(** * Vocabulary of the properties *)

Module Spec.
Import JS FullHeightIframe.

(** [hay] contains the substring [needle]. *)
Definition contains (needle hay : string) : Prop :=
  exists pre post, hay = pre +:+ needle +:+ post.

(** [pre] is what precedes the first occurrence of [needle] in [hay], and
    [post] is what follows it. *)
Definition first_occurrence (needle hay pre post : string) : Prop :=
  hay = pre +:+ needle +:+ post /\
  forall pre' post', hay = pre' +:+ needle +:+ post' ->
                     (String.length pre <= String.length pre')%nat.

(** A string without dollar sign. *)
Fixpoint no_dollar (s : string) : bool :=
  match s with
  | EmptyString => true
  | String c rest => negb (Ascii.eqb c dollar) && no_dollar rest
  end.

(** *** The sandbox attribute *)

(** The tokens of an attribute value: the pieces between spaces, so that
    a doubled, leading or trailing space shows as an empty token. *)
Fixpoint tokens_from (cur s : string) : list string :=
  match s with
  | EmptyString => [cur]
  | String c rest =>
      if Ascii.eqb c " "%char then cur :: tokens_from EmptyString rest
      else tokens_from (cur +:+ String c EmptyString) rest
  end.

Definition tokens (s : string) : list string := tokens_from EmptyString s.

(** The sandbox tokens of the props that are true, in the order of the
    props. *)
Definition enabled_tokens (p : Props) : list string :=
  (if allowScripts p then ["allow-scripts"] else []) ++
  (if allowForms p then ["allow-forms"] else []) ++
  (if allowSameOrigin p then ["allow-same-origin"] else []) ++
  (if allowPopups p then ["allow-popups"] else []) ++
  (if allowDownloads p then ["allow-downloads"] else []).

Definition all_flags_false (p : Props) : Prop :=
  allowScripts p = false /\ allowForms p = false /\ allowSameOrigin p = false /\
  allowPopups p = false /\ allowDownloads p = false.

(** *** Helper-script injection *)

(** The HTML contains one of the listed Alpine directives. *)
Definition has_alpine_directive (html : string) : Prop :=
  exists dir, In dir alpineDirectives /\ contains dir html.

(** The HTML contains [new Chart(] or [Chart.]. *)
Definition has_chart_directive (html : string) : Prop :=
  contains "new Chart(" html \/ contains "Chart." html.

(** The Alpine bundle can be imported and turned into a blob URL. *)
Definition alpine_loads (ld : Loader) (alpineUrl : string) : Prop :=
  exists alpineCode,
    import_alpine ld = Normal alpineCode /\
    createObjectURL ld alpineCode = Normal alpineUrl.

(** The Chart.js module can be imported. *)
Definition chart_loads (ld : Loader) : Prop :=
  exists m, import_chart ld = Normal m.

(** The Alpine helper is among the tags to inject. *)
Definition injects_alpine (ld : Loader) (html : string) : Prop :=
  exists alpineUrl, In (alpineTag alpineUrl) (scriptTags ld html).

(** The Chart.js helper is among the tags to inject. *)
Definition injects_chart (ld : Loader) (html : string) : Prop :=
  In chartTag (scriptTags ld html).

(** The blob URLs the browser hands out contain no dollar sign (they are
    made of [blob:], the page's origin and a UUID). *)
Definition plain_blob_urls (ld : Loader) : Prop :=
  forall alpineCode alpineUrl,
    createObjectURL ld alpineCode = Normal alpineUrl -> no_dollar alpineUrl = true.

(** A loader whose imports both succeed, and one whose Alpine import
    rejects. *)
Definition loader_ok : Loader := {|
  import_alpine := Normal "/* alpine */";
  createObjectURL := fun _ => Normal "blob:http://localhost:5173/0b0c3f6e";
  import_chart := Normal tt
  |}.

Definition loader_offline : Loader := {|
  import_alpine := Throw "TypeError: Failed to fetch dynamically imported module";
  createObjectURL := fun _ => Normal "blob:http://localhost:5173/0b0c3f6e";
  import_chart := Throw "TypeError: Failed to fetch dynamically imported module"
  |}.

Definition trustedProps : Props := {|
  initialHeight := None;
  allowScripts := true;
  allowForms := false;
  allowSameOrigin := true;
  allowPopups := false;
  allowDownloads := true;
  payload := VNull
  |}.

(** *** Sizes *)

(** The larger of the two scroll heights of a document, a missing
    element counting for 0. *)
Definition measured (doc : Document) : Z :=
  Z.max (from_option scrollHeight 0 (documentElement doc))
        (from_option scrollHeight 0 (body doc)).

(** The document of the iframe can be read, and is [doc]. *)
Definition accessible (f : HTMLIFrameElement) (doc : Document) : Prop :=
  contentDocument f = Some doc \/
  (contentDocument f = None /\
   exists w, contentWindow f = Some w /\ document w = Normal doc).



(** [x] is a size of at least [lo] pixels. *)
Definition at_least (lo : Z) (x : number) : Prop :=
  match x with
  | Finite z => lo <= z
  | Infinity => True
  | NaN | NegInfinity => False
  end.

(** The size of the container respects the minimum of 200 by 300 pixels;
    a width of [null] stands for the full width. *)
Definition within_bounds (s : State) : Prop :=
  at_least 200 (containerHeight s) /\
  from_option (at_least 300) True (containerWidth s).

(** [min-width:300px] on the container. *)
Definition min_width (c : option HTMLDivElement) : Prop :=
  from_option (fun c => 300 <= offsetWidth c) True c.

Definition layout_min_width (ev : DragEvent) : Prop :=
  match ev with
  | Layout c => min_width c
  | _ => True
  end.

(** A component in the middle of a drag that started at (100, 100) with
    a container of 650 by 800 pixels. *)
Definition dragging_state : State := {|
  iframe := None;
  container := Some {| offsetWidth := 800 |};
  containerHeight := Finite 650;
  containerWidth := Some (Finite 800);
  isDragging := true;
  dragStartX := Finite 100;
  dragStartY := Finite 100;
  dragStartHeight := Finite 650;
  dragStartWidth := Finite 800;
  bodyUserSelect := "none";
  bodyCursor := "nwse-resize";
  documentListeners := true;
  posted := [];
  logged := []
  |}.

(** No drag is in progress, or the drag started from a size and a
    pointer position that are numbers. *)
Definition drag_started_well (s : State) : Prop :=
  isDragging s = true ->
  dragStartHeight s <> NaN /\ dragStartWidth s <> NaN /\
  (exists x, dragStartX s = Finite x) /\ (exists y, dragStartY s = Finite y).

(** *** Messages *)

(** The message comes from the window of the mounted iframe [w]. *)
Definition from_iframe (s : State) (w : Window) (e : MessageEvent) : Prop :=
  exists f, iframe s = Some f /\ contentWindow f = Some w /\ source e = Some (windowId w).

(** The message does not come from the iframe's window, or no iframe is
    mounted. *)
Definition foreign (s : State) (e : MessageEvent) : Prop :=
  match iframe s with
  | None => True
  | Some f => source e <> windowId <$> contentWindow f
  end.

Definition foreignb (s : State) (e : MessageEvent) : bool :=
  match iframe s with
  | None => true
  | Some f => negb (bool_decide (source e = windowId <$> contentWindow f))
  end.

(** The [type] field of a message. *)
Definition message_type (e : MessageEvent) : value := get (data e) "type".

(** The request's [requestId], [null] when it has none. *)
Definition request_id (e : MessageEvent) : value :=
  match get (data e) "requestId" with
  | VUndefined => VNull
  | v => v
  end.

(** [Math.max(200, height)] for a [height] that is a number: the larger
    of the two, and [NaN] when the height is [NaN]. *)
Definition max_200 (height : number) : number :=
  match height with
  | NaN => NaN
  | NegInfinity => Finite 200
  | Finite z => Finite (Z.max 200 z)
  | Infinity => Infinity
  end.

(** The [height] field of the message is not a number. *)
Definition height_not_a_number (e : MessageEvent) : Prop :=
  forall height, get (data e) "height" <> VNumber height.

(** The message [{type: 'pong:ack'}]. *)
Definition pong_ack_message : value := VObject [("type", VString "pong:ack")].

(** The message [{type: 'payload', requestId, payload}]. *)
Definition payload_message (requestId payload : value) : value :=
  VObject [("type", VString "payload"); ("requestId", requestId); ("payload", payload)].

(** A mounted, cross-origin iframe whose window is number 7. *)
Definition embedded : HTMLIFrameElement := {|
  contentDocument := None;
  contentWindow := Some {| windowId := 7; document := Throw "SecurityError" |}
  |}.

Definition mounted_state : State := {|
  iframe := Some embedded;
  container := Some {| offsetWidth := 800 |};
  containerHeight := Finite 650;
  containerWidth := None;
  isDragging := false;
  dragStartX := Finite 0;
  dragStartY := Finite 0;
  dragStartHeight := Finite 0;
  dragStartWidth := Finite 0;
  bodyUserSelect := EmptyString;
  bodyCursor := EmptyString;
  documentListeners := false;
  posted := [];
  logged := []
  |}.

(** A mounted same-origin iframe whose [documentElement] and [body] have
    the given scroll heights. *)
Definition same_origin_state (rootHeight bodyHeight : Z) : State := {|
  iframe :=
    Some {| contentDocument :=
              Some {| documentElement := Some {| scrollHeight := rootHeight |};
                      body := Some {| scrollHeight := bodyHeight |} |};
            contentWindow := None |};
  container := Some {| offsetWidth := 800 |};
  containerHeight := Finite 650;
  containerWidth := None;
  isDragging := false;
  dragStartX := Finite 0;
  dragStartY := Finite 0;
  dragStartHeight := Finite 0;
  dragStartWidth := Finite 0;
  bodyUserSelect := EmptyString;
  bodyCursor := EmptyString;
  documentListeners := false;
  posted := [];
  logged := []
|}.

(** A mounted same-origin iframe given an [initialHeight] of 100 pixels,
    laid out: the root of its document is as high as the frame, the body is
    shorter. *)
Definition short_frame_state : State := {|
  iframe :=
    Some {| contentDocument :=
              Some {| documentElement := Some {| scrollHeight := 100 |};
                      body := Some {| scrollHeight := 64 |} |};
            contentWindow := None |};
  container := Some {| offsetWidth := 800 |};
  containerHeight := Finite 100;
  containerWidth := None;
  isDragging := false;
  dragStartX := Finite 0;
  dragStartY := Finite 0;
  dragStartHeight := Finite 0;
  dragStartWidth := Finite 0;
  bodyUserSelect := EmptyString;
  bodyCursor := EmptyString;
  documentListeners := false;
  posted := [];
  logged := []
|}.

(** The invariant of a drag. *)
Definition drag_invariant (s : State) : Prop :=
  within_bounds s /\ drag_started_well s /\ min_width (container s).

(** *** i18n *)

(** The resources object has no key. *)
Definition zero_keys (resources : I18n.Resources) : Prop :=
  forall lng, resources !! lng = None.

(** The event is neither [loaded] nor [failedLoading]. *)
Definition other_event (ev : I18n.Event) : Prop :=
  match ev with
  | I18n.Loaded _ | I18n.FailedLoading _ _ _ => False
  | _ => True
  end.

(** *** Sign-in and sign-up *)

(** Where the specification sends the page: to the [redirect] parameter
    of the URL if present, otherwise to [/]. *)
Definition claimed_destination (form : Auth.Form) : string :=
  default "/" (Auth.redirectParam form).

(** Where the page goes: the [redirect] parameter of the URL if present
    and not empty, otherwise [/]. *)
Definition destination (form : Auth.Form) : string :=
  match Auth.redirectParam form with
  | Some (String c rest) => String c rest
  | _ => "/"
  end.

(** The URLs [goto] was called with, oldest first. *)
Definition gotos (effects : list Auth.Effect) : list string :=
  omap (fun e => match e with Auth.Goto url => Some url | _ => None end) effects.

(** The user carries a token that is not the empty string. *)
Definition has_token (u : Auth.SessionUser) (tok : string) : Prop :=
  Auth.token u = Some tok /\ tok <> EmptyString.

(** What a successful sign-in or sign-up leaves behind: [out] is the
    handler's completion and the page after it.  The user store holds the
    user, a non-empty token is in [localStorage], and once the backend
    configuration has been fetched the handler has completed and the page
    has navigated to [destination]. *)
Definition signed_in (api : Auth.Api) (form : Auth.Form) (pg : Auth.Page)
    (u : Auth.SessionUser) (out : JS.completion string unit * Auth.Page) : Prop :=
  Auth.user out.2 = Some u /\
  (forall tok, has_token u tok -> Auth.localStorage out.2 !! "token" = Some tok) /\
  (forall cfg, Auth.getBackendConfig api = JS.Normal cfg ->
               out.1 = JS.Normal tt /\
               gotos (Auth.effects out.2) = gotos (Auth.effects pg) ++ [destination form]).

(** The page after an error toast and nothing else. *)
Definition toast_only (message : string) (pg : Auth.Page) : Auth.Page := {|
  Auth.localStorage := Auth.localStorage pg;
  Auth.user := Auth.user pg;
  Auth.config := Auth.config pg;
  Auth.effects := Auth.effects pg ++ [Auth.ToastError message]
  |}.

(** Sign-up gets as far as calling the API: password confirmation is not
    required, or the two passwords are the same. *)
Definition confirmation_passes (form : Auth.Form) (pg : Auth.Page) : Prop :=
  from_option Auth.enable_signup_password_confirmation false (Auth.config pg) = false \/
  Auth.password form = Auth.confirmPassword form.

(** A backend that accepts [ada] and is reachable, and the page
    [/auth?redirect=]. *)
Definition ada : Auth.SessionUser := {| Auth.id := "1"; Auth.token := Some "jwt-ada" |}.

Definition backend_up : Auth.Api := {|
  Auth.userSignIn := fun _ _ => JS.Normal (Some ada);
  Auth.userSignUp := fun _ _ _ _ => JS.Normal (Some ada);
  Auth.getBackendConfig := JS.Normal {| Auth.enable_signup_password_confirmation := true |};
  Auth.getUserTimezone := "Europe/Paris";
  Auth.generateInitialsImage := fun name => name;
  Auth.t := fun s => s
  |}.

Definition form_with_redirect (redirect : option string) : Auth.Form := {|
  Auth.mode := Auth.signin;
  Auth.name := "Ada";
  Auth.email := "ada@example.com";
  Auth.password := "secret";
  Auth.confirmPassword := "secret";
  Auth.redirectParam := redirect
  |}.

Definition fresh_page : Auth.Page := {|
  Auth.localStorage := ∅;
  Auth.user := None;
  Auth.config := None;
  Auth.effects := []
  |}.

(** *** More on the drag *)

(** The document listeners and the body styles say whether a drag is in
    progress. *)
Definition listeners_match (s : State) : Prop :=
  documentListeners s = isDragging s /\
  bodyUserSelect s = (if isDragging s then "none" else EmptyString) /\
  bodyCursor s = (if isDragging s then "nwse-resize" else EmptyString).

(** The component handling a run of [mousemove] events. *)
Definition onDragMoves (moves : list MouseEvent) (s : State) : State :=
  fold_left (fun s e => onDragMove e s) moves s.

(** Everything of the state that is not [containerHeight], [posted] or
    [logged]. *)
Definition same_layout (s s' : State) : Prop :=
  iframe s' = iframe s /\ container s' = container s /\
  containerWidth s' = containerWidth s /\ isDragging s' = isDragging s /\
  dragStartX s' = dragStartX s /\ dragStartY s' = dragStartY s /\
  dragStartHeight s' = dragStartHeight s /\ dragStartWidth s' = dragStartWidth s /\
  bodyUserSelect s' = bodyUserSelect s /\ bodyCursor s' = bodyCursor s /\
  documentListeners s' = documentListeners s.

(** The window the component may post to. *)
Definition iframe_window (s : State) : option nat :=
  f ← iframe s; w ← contentWindow f; Some (windowId w).

(** A reply of the component: the acknowledgement of a [pong], or the
    payload. *)
Definition is_reply (p : Props) (message : value) : Prop :=
  message = pongAck \/ exists requestId, message = payloadReply requestId (payload p).

(** *** More on the injection *)

(** What [processHtmlForDeps] adds to the HTML: the tags joined by
    newlines and a final newline, or nothing when there is no tag. *)
Definition inserted_text (tags : list string) : string :=
  match tags with
  | [] => EmptyString
  | _ => join nl tags +:+ nl
  end.

(** *** More on i18n *)

(** The events on which [createI18nStore] sets the store again. *)
Definition republishes (ev : I18n.Event) : bool :=
  match ev with
  | I18n.Initialized | I18n.Loaded _ | I18n.Added _ _ | I18n.LanguageChanged _ => true
  | _ => false
  end.

(** The event raises [isLoading]: a failed load, or a load that brought
    nothing. *)
Definition raises_loading (ev : I18n.Event) : Prop :=
  match ev with
  | I18n.FailedLoading _ _ _ => True
  | I18n.Loaded resources => zero_keys resources
  | _ => False
  end.

Definition not_loaded (ev : I18n.Event) : Prop :=
  match ev with
  | I18n.Loaded _ => False
  | _ => True
  end.

(** *** More on sign-in and sign-up *)

(** The time zone updates requested, oldest first. *)
Definition timezone_updates (effects : list Auth.Effect) : list (string * string) :=
  omap (fun e => match e with
                 | Auth.UpdateUserTimezone tok tz => Some (tok, tz)
                 | _ => None
                 end) effects.

(** Password confirmation is required and the two passwords differ. *)
Definition confirmation_fails (form : Auth.Form) (pg : Auth.Page) : Prop :=
  from_option Auth.enable_signup_password_confirmation false (Auth.config pg) = true /\
  Auth.password form <> Auth.confirmPassword form.

(** A backend whose configuration cannot be fetched. *)
Definition backend_without_config : Auth.Api := {|
  Auth.userSignIn := fun _ _ => JS.Normal (Some ada);
  Auth.userSignUp := fun _ _ _ _ => JS.Normal (Some ada);
  Auth.getBackendConfig := JS.Throw "TypeError: Failed to fetch";
  Auth.getUserTimezone := "Europe/Paris";
  Auth.generateInitialsImage := fun name => name;
  Auth.t := fun s => s
|}.

(** The [redirectPath] entry [onMount] leaves in [localStorage] for a
    visitor who is not signed in. *)
Definition remember_redirect (form : Auth.Form) (ls : gmap string string)
  : gmap string string :=
  match Auth.redirectParam form with
  | Some (String c rest) => <["redirectPath" := String c rest]> ls
  | _ => ls
  end.

(** The page URL carries [form=signup]. *)
Definition asks_signup (q : AuthMount.Query) : Prop :=
  AuthMount.formParam q = Some "signup".

(** A visit of the page: [onMount], then a sign-in. *)
Definition visit_and_sign_in (api : Auth.Api) (form : Auth.Form)
    (q : AuthMount.Query) (l : AuthMount.Local) : Auth.Async unit :=
  @mbind Auth.Async Auth.Async_bind _ _
    (fun _ => Auth.signInHandler api form) (AuthMount.onMount form q l).

(** *** URL or raw HTML *)

(** Lower case, on ASCII letters. *)
Definition lower (c : ascii) : ascii :=
  let n := nat_of_ascii c in
  if ((65 <=? n) && (n <=? 90))%nat then ascii_of_nat (n + 32) else c.

Fixpoint lowercase (s : string) : string :=
  match s with
  | EmptyString => EmptyString
  | String c rest => String (lower c) (lowercase rest)
  end.

(** [s] starts, letter case ignored, with [//], [http://] or [https://]. *)
Definition starts_like_a_url (s : string) : Prop :=
  exists start rest,
    s = start +:+ rest /\ In (lowercase start) ["//"; "http://"; "https://"].

(** *** Source, observer and timers *)

(** The debounced resize timers that are pending (those of 100 ms). *)
Definition debounced (t : Embed.Timers) : list (nat * Z) :=
  List.filter (fun x => x.2 =? 100) (Embed.pending t).

(** The retry timers that are pending (all the others). *)
Definition retries (t : Embed.Timers) : list (nat * Z) :=
  List.filter (fun x => negb (x.2 =? 100)) (Embed.pending t).

(** Handles are positive, distinct and below the next one, and the
    pending debounced timer, if any, is the one [resizeTimeout] names. *)
Definition timers_ok (t : Embed.Timers) : Prop :=
  (1 <= Embed.nextTimer t)%nat /\
  NoDup (map fst (Embed.pending t)) /\
  Forall (fun x => (1 <= x.1 < Embed.nextTimer t)%nat) (Embed.pending t) /\
  (forall h, Embed.resizeTimeout t = Some h -> (h < Embed.nextTimer t)%nat) /\
  Forall (fun x => x.2 = 100 <-> Embed.resizeTimeout t = Some x.1) (Embed.pending t).

(** A component showing a same-origin document, observed by observer 0. *)
Definition observed_widget : Embed.Widget := {|
  Embed.state := same_origin_state 150 480;
  Embed.src := Some "<p>hello</p>";
  Embed.iframeSrc := None;
  Embed.iframeDoc := Some "<p>hello</p>";
  Embed.observers :=
    {| Embed.observerInstance := Some 0%nat; Embed.observing := [0%nat];
       Embed.nextObserver := 1 |};
  Embed.timers :=
    {| Embed.resizeTimeout := None; Embed.pending := []; Embed.nextTimer := 1 |};
  Embed.messageListener := true
|}.

End Spec.

(** * Properties *)

(** ** Strings: what [indexOf], [includes] and [replace] compute *)

Section StringFacts.
Import JS Spec.

Lemma append_nil (b : string) : EmptyString +:+ b = b.
Proof. reflexivity. Qed.

Lemma append_cons (x : ascii) (a b : string) : String x a +:+ b = String x (a +:+ b).
Proof. reflexivity. Qed.

Lemma append_assoc (a b c : string) : (a +:+ b) +:+ c = a +:+ (b +:+ c).
Proof.
  induction a as [|x a IH]; [reflexivity|].
  rewrite !append_cons. now rewrite IH.
Qed.

Lemma append_empty_r (a : string) : a +:+ EmptyString = a.
Proof.
  induction a as [|x a IH]; [reflexivity|].
  rewrite append_cons. now rewrite IH.
Qed.

Lemma length_append (a b : string) :
  String.length (a +:+ b) = (String.length a + String.length b)%nat.
Proof.
  induction a as [|x a IH]; [reflexivity|].
  rewrite append_cons. simpl. now rewrite IH.
Qed.

Lemma prefix_append (n post : string) : String.prefix n (n +:+ post) = true.
Proof.
  induction n as [|x n IH].
  - now destruct post.
  - rewrite append_cons. simpl. destruct (ascii_dec x x); [exact IH | congruence].
Qed.

Lemma prefix_drop (n h : string) :
  String.prefix n h = true -> h = n +:+ drop (String.length n) h.
Proof.
  revert h; induction n as [|x n IH]; intros h Hp.
  - now destruct h.
  - destruct h as [|y h]; simpl in Hp; [discriminate|].
    destruct (ascii_dec x y) as [->|]; [|discriminate].
    rewrite append_cons. simpl. f_equal. now apply IH.
Qed.

Lemma indexOf_take_drop (n h : string) (k : nat) :
  indexOf n h = Some k ->
  h = take k h +:+ n +:+ drop (k + String.length n) h /\ String.length (take k h) = k.
Proof.
  revert k; induction h as [|c r IH]; intros k; cbn [indexOf].
  - destruct (String.prefix n EmptyString) eqn:Hp; [|discriminate].
    intros [= <-]. split; [|reflexivity]. rewrite append_nil. now apply prefix_drop.
  - destruct (String.prefix n (String c r)) eqn:Hp.
    + intros [= <-]. split; [|reflexivity]. rewrite append_nil. now apply prefix_drop.
    + destruct (indexOf n r) as [k'|] eqn:Hi; simpl; [|discriminate].
      intros [= <-]. destruct (IH k' eq_refl) as [Hr Hl].
      simpl. rewrite append_cons. split; [f_equal; exact Hr | f_equal; exact Hl].
Qed.

Lemma indexOf_least (n h : string) (k : nat) :
  indexOf n h = Some k ->
  forall pre post, h = pre +:+ n +:+ post -> (k <= String.length pre)%nat.
Proof.
  revert k; induction h as [|c r IH]; intros k; cbn [indexOf].
  - destruct (String.prefix n EmptyString); [|discriminate].
    intros [= <-] pre post _. lia.
  - destruct (String.prefix n (String c r)) eqn:Hp.
    + intros [= <-] pre post _. lia.
    + destruct (indexOf n r) as [k'|] eqn:Hi; simpl; [|discriminate].
      intros [= <-] pre post Hh. destruct pre as [|x pre].
      * rewrite append_nil in Hh. rewrite Hh, prefix_append in Hp. discriminate.
      * rewrite append_cons in Hh. injection Hh as -> Hr. simpl.
        specialize (IH k' eq_refl pre post Hr). lia.
Qed.

Lemma indexOf_None (n h : string) :
  indexOf n h = None -> ~ contains n h.
Proof.
  induction h as [|c r IH]; cbn [indexOf].
  - destruct (String.prefix n EmptyString) eqn:Hp; [discriminate|].
    intros _ (pre & post & Hh). destruct pre.
    + rewrite append_nil in Hh. rewrite Hh, prefix_append in Hp. discriminate.
    + rewrite append_cons in Hh. discriminate.
  - destruct (String.prefix n (String c r)) eqn:Hp; [discriminate|].
    destruct (indexOf n r) as [k'|] eqn:Hi; simpl; [discriminate|].
    intros _ (pre & post & Hh). destruct pre as [|x pre].
    + rewrite append_nil in Hh. rewrite Hh, prefix_append in Hp. discriminate.
    + rewrite append_cons in Hh. injection Hh as -> Hr.
      apply IH; [reflexivity|]. now exists pre, post.
Qed.

(** [includes] decides substring containment. *)
Lemma includes_true (n h : string) : includes n h = true <-> contains n h.
Proof.
  unfold includes. destruct (indexOf n h) as [k|] eqn:Hi.
  - split; [intros _|reflexivity].
    destruct (indexOf_take_drop _ _ _ Hi) as [Hh _]. eexists _, _. exact Hh.
  - split; [discriminate|]. intros Hc. now apply indexOf_None in Hi.
Qed.


Lemma includes_first_occurrence (n h : string) :
  includes n h = true ->
  exists k, indexOf n h = Some k /\
            first_occurrence n h (take k h) (drop (k + String.length n) h).
Proof.
  unfold includes. destruct (indexOf n h) as [k|] eqn:Hi; [intros _|discriminate].
  exists k. split; [reflexivity|].
  destruct (indexOf_take_drop _ _ _ Hi) as [Hh Hl].
  split; [exact Hh|]. intros pre' post' Hh'. rewrite Hl.
  exact (indexOf_least _ _ _ Hi _ _ Hh').
Qed.

Lemma no_dollar_append (a b : string) :
  no_dollar (a +:+ b) = no_dollar a && no_dollar b.
Proof.
  induction a as [|x a IH]; [reflexivity|].
  rewrite append_cons. simpl. rewrite IH. now rewrite andb_assoc.
Qed.

(** A replacement text without dollar sign is inserted as it is. *)
Lemma getSubstitution_no_dollar (m b a template : string) :
  no_dollar template = true -> getSubstitution m b a template = template.
Proof.
  induction template as [|c rest IH]; simpl; [reflexivity|].
  intros [Hc Hr]%andb_true_iff. apply negb_true_iff in Hc. rewrite Hc.
  f_equal. now apply IH.
Qed.

Lemma replace_first (pattern replacement str : string) :
  includes pattern str = true ->
  no_dollar replacement = true ->
  exists pre post,
    first_occurrence pattern str pre post /\
    replace pattern replacement str = pre +:+ replacement +:+ post.
Proof.
  intros Hin Hnd. destruct (includes_first_occurrence _ _ Hin) as (k & Hi & Hfirst).
  eexists _, _. split; [exact Hfirst|].
  unfold replace. rewrite Hi. now rewrite getSubstitution_no_dollar.
Qed.

End StringFacts.

(** ** The sandbox attribute *)

Section Sandbox.
Import JS FullHeightIframe Spec.

(** C1.  Whatever the five boolean props are, the sandbox attribute is
    absent exactly when all of them are false, and otherwise its tokens
    (the pieces between single spaces) are exactly the tokens of the props
    that are true, in the fixed order scripts, forms, same-origin, popups,
    downloads.  With the default props it reads
    [allow-scripts allow-downloads], and [allow-same-origin] is among the
    tokens only when the prop [allowSameOrigin] is set. *)
Theorem sandbox_attribute (p : Props) :
  match sandbox p with
  | None => all_flags_false p
  | Some attr => tokens attr = enabled_tokens p /\ ~ all_flags_false p
  end /\
  (forall attr, sandbox p = Some attr ->
                (In "allow-same-origin" (tokens attr) <-> allowSameOrigin p = true)) /\
  sandbox defaultProps = Some "allow-scripts allow-downloads".
Proof.
  split; [|split; [|reflexivity]].
  - destruct p as [ih [] [] [] [] [] pl]; vm_compute;
      first [ repeat split; reflexivity
            | split; [reflexivity | intros (? & ? & ? & ? & ?); discriminate] ].
  - intros attr. destruct p as [ih [] [] [] [] [] pl]; vm_compute;
      intros [= <-]; intuition discriminate.
Qed.

End Sandbox.

(** ** Helper-script injection *)

Section Injection.
Import JS FullHeightIframe Spec.

Lemma some_included_true (directives : list string) (html : string) :
  some_included directives html = true <->
  exists dir, In dir directives /\ contains dir html.
Proof.
  unfold some_included. rewrite existsb_exists.
  split; intros (dir & Hin & Hc); exists dir; (split; [exact Hin|]);
    now apply includes_true.
Qed.

Lemma chart_included_true (html : string) :
  some_included chartJsDirectives html = true <-> has_chart_directive html.
Proof.
  rewrite some_included_true. unfold has_chart_directive, chartJsDirectives.
  split.
  - intros (dir & [<-|[<-|[]]] & Hc); [now left | now right].
  - intros [Hc|Hc]; eexists; (split; [|exact Hc]); simpl; tauto.
Qed.

Lemma alpineTag_not_chartTag (alpineUrl : string) : alpineTag alpineUrl <> chartTag.
Proof. vm_compute. discriminate. Qed.

Lemma scriptTags_cases (ld : Loader) (html : string) :
  forall tag, In tag (scriptTags ld html) ->
    (tag = chartTag /\ some_included chartJsDirectives html = true /\ chart_loads ld) \/
    (exists alpineUrl, tag = alpineTag alpineUrl /\
                       some_included alpineDirectives html = true /\
                       alpine_loads ld alpineUrl).
Proof.
  intros tag. unfold scriptTags, alpineStep, chartStep, chart_loads, alpine_loads.
  rewrite in_app_iff. intros [Hin|Hin].
  - right. destruct (some_included alpineDirectives html); [|destruct Hin].
    destruct (import_alpine ld) as [code|] eqn:Hi; [|destruct Hin].
    destruct (createObjectURL ld code) as [url|] eqn:Hu; [|destruct Hin].
    destruct Hin as [<-|[]]. exists url. eauto.
  - left. destruct (some_included chartJsDirectives html); [|destruct Hin].
    destruct (import_chart ld) as [m|] eqn:Hi; [|destruct Hin].
    destruct Hin as [<-|[]]. eauto.
Qed.

(** C10.  When [allowSameOrigin] is false, [processHtmlForDeps] returns
    the HTML it was given, unchanged, whatever that HTML is and whatever
    the imports would answer; it imports nothing and injects nothing. *)
Theorem processHtmlForDeps_untrusted_identity (p : Props) (ld : Loader) (html : string) :
  allowSameOrigin p = false ->
  processHtmlForDeps p ld html = (html, []).
Proof. intros Hs. unfold processHtmlForDeps. now rewrite Hs. Qed.

Lemma processHtmlForDeps_untrusted_identity_witness :
  allowSameOrigin defaultProps = false /\
  processHtmlForDeps defaultProps loader_ok "<div x-data>new Chart(ctx)</div>"
  = ("<div x-data>new Chart(ctx)</div>", []).
Proof.
  split; [reflexivity|].
  apply processHtmlForDeps_untrusted_identity. reflexivity.
Defined.

Lemma no_dollar_join (sep : string) (parts : list string) :
  no_dollar sep = true ->
  Forall (fun s => no_dollar s = true) parts ->
  no_dollar (join sep parts) = true.
Proof.
  intros Hsep. induction 1 as [|s rest Hs Hrest IH]; [reflexivity|].
  destruct rest as [|s' rest]; [exact Hs|].
  change (join sep (s :: s' :: rest)) with (s +:+ sep +:+ join sep (s' :: rest)).
  now rewrite !no_dollar_append, Hs, Hsep, IH.
Qed.

Lemma no_dollar_scriptTags (ld : Loader) (html : string) :
  plain_blob_urls ld ->
  no_dollar (join nl (scriptTags ld html)) = true.
Proof.
  intros Hplain. apply no_dollar_join; [reflexivity|].
  apply List.Forall_forall. intros tag Hin.
  destruct (scriptTags_cases _ _ _ Hin) as [(-> & _)|(url & -> & _ & code & _ & Hurl)].
  - reflexivity.
  - unfold alpineTag. rewrite !no_dollar_append, (Hplain _ _ Hurl). reflexivity.
Qed.

(** C5, as the code has it.  With [allowSameOrigin] set, the Alpine
    helper is injected exactly when the HTML contains one of the 18
    directives and the Alpine bundle could be imported and given a blob
    URL; the Chart.js helper exactly when the HTML contains [new Chart(] or
    [Chart.] and the Chart.js module could be imported.  Both can be
    injected for the same input (Alpine first), and nothing but these two
    tags is ever injected. *)
Theorem processHtmlForDeps_injects (p : Props) (ld : Loader) (html : string) :
  allowSameOrigin p = true ->
  (processHtmlForDeps p ld html).1 = inject (scriptTags ld html) html /\
  (injects_alpine ld html <->
     has_alpine_directive html /\ exists alpineUrl, alpine_loads ld alpineUrl) /\
  (injects_chart ld html <-> has_chart_directive html /\ chart_loads ld) /\
  (forall alpineUrl,
      has_alpine_directive html -> alpine_loads ld alpineUrl ->
      has_chart_directive html -> chart_loads ld ->
      scriptTags ld html = [alpineTag alpineUrl; chartTag]) /\
  (forall tag, In tag (scriptTags ld html) ->
               tag = chartTag \/ exists alpineUrl, tag = alpineTag alpineUrl) /\
  length alpineDirectives = 18%nat.
Proof.
  intros Hs. split; [|split; [|split; [|split; [|split; [|reflexivity]]]]].
  - unfold processHtmlForDeps. now rewrite Hs.
  - split.
    + intros (url & Hin).
      destruct (scriptTags_cases _ _ _ Hin) as [(Heq & _)|(url' & _ & Hinc & Hld)].
      * now apply alpineTag_not_chartTag in Heq.
      * split; [now apply some_included_true | now exists url'].
    + intros (Hdir%some_included_true & url & code & Hi & Hu).
      exists url. unfold scriptTags, alpineStep. rewrite Hdir, Hi, Hu.
      now left.
  - split.
    + intros Hin.
      destruct (scriptTags_cases _ _ _ Hin) as [(_ & Hinc & Hld)|(url & Heq & _)].
      * split; [now apply chart_included_true | exact Hld].
      * symmetry in Heq. now apply alpineTag_not_chartTag in Heq.
    + intros (Hdir%chart_included_true & m & Hi).
      unfold injects_chart, scriptTags, chartStep. rewrite Hdir, Hi.
      apply in_or_app. right. now left.
  - intros url Ha%some_included_true (code & Hi & Hu) Hc%chart_included_true (m & Hm).
    unfold scriptTags, alpineStep, chartStep. now rewrite Ha, Hi, Hu, Hc, Hm.
  - intros tag Hin.
    destruct (scriptTags_cases _ _ _ Hin) as [(-> & _)|(url & -> & _)];
      [now left | right; now exists url].
Qed.

Lemma processHtmlForDeps_injects_witness :
  allowSameOrigin trustedProps = true /\
  (processHtmlForDeps trustedProps loader_ok "<p x-show=1>Chart.defaults</p>").1
  = inject (scriptTags loader_ok "<p x-show=1>Chart.defaults</p>")
           "<p x-show=1>Chart.defaults</p>".
Proof.
  split; [reflexivity|].
  apply (processHtmlForDeps_injects trustedProps loader_ok). reflexivity.
Defined.

(** C5 as it is worded fails when the dynamic import rejects: the HTML
    below contains the directive [x-data], and yet nothing is injected. *)
Lemma alpine_import_rejected_counterexample :
  allowSameOrigin trustedProps = true /\
  ~ (injects_alpine loader_offline "<div x-data></div>" <->
     has_alpine_directive "<div x-data></div>") /\
  processHtmlForDeps trustedProps loader_offline "<div x-data></div>"
  = ("<div x-data></div>",
     [ImportAlpine;
      ConsoleError "Error processing Alpine for iframe:"
                   "TypeError: Failed to fetch dynamically imported module"]).
Proof.
  split; [reflexivity|]. split; [|reflexivity].
  intros [_ Hback].
  destruct Hback as (url & Hin).
  - exists "x-data". split; [now left|]. now exists "<div ", "></div>".
  - exact Hin.
Qed.



(** The three placements on concrete documents. *)
Example placement_head :
  (processHtmlForDeps trustedProps loader_ok "<head></head><body x-data></body>").1
  = "<head>" +:+ alpineTag "blob:http://localhost:5173/0b0c3f6e" +:+ nl
    +:+ "</head><body x-data></body>".
Proof. reflexivity. Qed.

Example placement_body :
  (processHtmlForDeps trustedProps loader_ok "<body>Chart.register()</body></body>").1
  = "<body>Chart.register()" +:+ chartTag +:+ nl +:+ "</body></body>".
Proof. reflexivity. Qed.

Example placement_front :
  (processHtmlForDeps trustedProps loader_ok "<p x-text=a>new Chart(c)</p>").1
  = alpineTag "blob:http://localhost:5173/0b0c3f6e" +:+ nl +:+ chartTag +:+ nl
    +:+ "<p x-text=a>new Chart(c)</p>".
Proof. reflexivity. Qed.

End Injection.

(** ** Measuring same-origin content *)

Section Resize.
Import JS FullHeightIframe Spec.

Lemma Math_max_Finite (a b : Z) : Math_max (Finite a) (Finite b) = Finite (Z.max a b).
Proof.
  unfold Math_max, lt. destruct (Z.ltb_spec a b); f_equal; lia.
Qed.

Lemma measured_Math_max (doc : Document) :
  Math_max (scrollHeight_or_0 (documentElement doc)) (scrollHeight_or_0 (body doc))
  = Finite (measured doc).
Proof.
  unfold measured, scrollHeight_or_0.
  destruct (documentElement doc), (body doc); apply Math_max_Finite.
Qed.

Lemma read_document_accessible (f : HTMLIFrameElement) (doc : Document) :
  accessible f doc <-> read_document f = Normal (Some doc).
Proof.
  unfold accessible, read_document. split.
  - intros [->|(-> & w & -> & ->)]; reflexivity.
  - destruct (contentDocument f) as [d|]; [intros [= ->]; now left|].
    destruct (contentWindow f) as [w|]; [|discriminate].
    destruct (document w) as [d|] eqn:Hd; [|discriminate].
    intros [= ->]. right. split; [reflexivity|]. now exists w.
Qed.


(** A cross-origin iframe, and a same-origin one whose body is 480 pixels
    high. *)
Example resize_cross_origin :
  resizeSameOrigin mounted_state = Normal mounted_state.
Proof. reflexivity. Qed.

Example resize_same_origin :
  resizeSameOrigin (same_origin_state 150 480)
  = Normal (set_containerHeight (Finite 500) (same_origin_state 150 480)).
Proof. reflexivity. Qed.

Example resize_empty_document :
  resizeSameOrigin (same_origin_state 0 0) = Normal (same_origin_state 0 0).
Proof. reflexivity. Qed.

End Resize.

(** ** Corner drag *)

Section Drag.
Import JS FullHeightIframe Spec.

(** [Math.max(lo, x)] is never below [lo], in the sense of [<]. *)
Lemma Math_max_not_below (lo : Z) (x : number) :
  lt (Math_max (Finite lo) x) (Finite lo) = false.
Proof.
  destruct x as [| |z|]; unfold Math_max, lt; try reflexivity.
  - apply Z.ltb_irrefl.
  - destruct (Z.ltb_spec lo z); apply Z.ltb_ge; lia.
Qed.

(** Unless [x] is [NaN], [Math.max(lo, x)] is a size of at least [lo]. *)
Lemma Math_max_at_least (lo : Z) (x : number) :
  x <> NaN -> at_least lo (Math_max (Finite lo) x).
Proof.
  destruct x as [| |z|]; unfold Math_max, lt, at_least; intros Hx;
    [congruence | lia | | exact I].
  destruct (Z.ltb_spec lo z); lia.
Qed.

Lemma add_Finite_not_NaN (a : number) (z : Z) : a <> NaN -> add a (Finite z) <> NaN.
Proof. destruct a; simpl; congruence. Qed.

Lemma at_least_not_NaN (lo : Z) (x : number) : at_least lo x -> x <> NaN.
Proof. destruct x; simpl; [tauto | congruence..]. Qed.

Lemma at_least_truthy (x : number) : at_least 300 x -> number_truthy x = true.
Proof.
  destruct x as [| |z|]; simpl; try tauto. intros H.
  apply negb_true_iff, Z.eqb_neq. lia.
Qed.

Lemma onDragMove_dragging (e : MouseEvent) (s : State) :
  isDragging s = true ->
  containerHeight (onDragMove e s)
  = Math_max (Finite 200)
      (add (dragStartHeight s) (sub (Finite (clientY e)) (dragStartY s))) /\
  containerWidth (onDragMove e s)
  = Some (Math_max (Finite 300)
            (add (dragStartWidth s) (sub (Finite (clientX e)) (dragStartX s)))).
Proof. intros Hd. unfold onDragMove. rewrite Hd. split; reflexivity. Qed.

Lemma dragStep_invariant (s : State) (ev : DragEvent) :
  drag_invariant s -> layout_min_width ev -> drag_invariant (dragStep s ev).
Proof.
  intros Hinv Hev. pose proof Hinv as ([Hh Hw] & Hd & Hc).
  destruct ev as [e|e| |c]; simpl.
  - (* mousedown *)
    split; [split|split]; simpl.
    + exact Hh.
    + destruct (container s) as [c|]; [|exact Hw].
      destruct (containerWidth s) as [w|] eqn:Hcw; simpl in *.
      * now rewrite (at_least_truthy _ Hw).
      * exact Hc.
    + intros _. split; [now apply at_least_not_NaN in Hh|]. split; [|eauto].
      destruct (containerWidth s) as [w|] eqn:Hcw; simpl in *; rewrite ?Hcw.
      * now apply at_least_not_NaN in Hw.
      * destruct (container s); discriminate.
    + exact Hc.
  - (* mousemove *)
    destruct (documentListeners s); [|exact Hinv].
    unfold onDragMove. destruct (isDragging s) eqn:Hdr; [|exact Hinv].
    destruct (Hd Hdr) as (Hsh & Hsw & (x & Hx) & (y & Hy)).
    rewrite Hx, Hy. split; [split|split]; simpl.
    + apply Math_max_at_least. now apply add_Finite_not_NaN.
    + apply Math_max_at_least. now apply add_Finite_not_NaN.
    + intros _. rewrite ?Hx, ?Hy. eauto.
    + exact Hc.
  - (* mouseup *)
    destruct (documentListeners s); [|exact Hinv].
    split; [now split|]. split; [|exact Hc]. intros Hdr. discriminate.
  - (* layout *)
    split; [now split|]. split; [exact Hd|exact Hev].
Qed.

Lemma dragTrace_invariant (evs : list DragEvent) (s : State) :
  drag_invariant s -> Forall layout_min_width evs ->
  Forall drag_invariant (dragTrace s evs).
Proof.
  revert s. induction evs as [|ev evs IH]; intros s Hs Hevs; simpl; [constructor|].
  inversion Hevs as [|? ? Hev Hrest]; subst.
  assert (Hs' := dragStep_invariant s ev Hs Hev).
  constructor; [exact Hs'|now apply IH].
Qed.

(** C9.  While a drag is in progress, every [mousemove] sets
    [containerHeight] to [Math.max(200, dragStartHeight + (clientY -
    dragStartY))] and [containerWidth] to [Math.max(300, dragStartWidth +
    (clientX - dragStartX))]; for start values that are finite these are
    the integer maxima.  Hence the height is never below 200 and the width
    never below 300 after a [mousemove]; and from a component at rest
    whose size is within these minima, no sequence of drag events, however
    far the pointer goes, leads to a state where it is not. *)
Theorem drag_keeps_minimum_size :
  (forall (e : MouseEvent) (s : State),
      isDragging s = true ->
      containerHeight (onDragMove e s)
      = Math_max (Finite 200)
          (add (dragStartHeight s) (sub (Finite (clientY e)) (dragStartY s))) /\
      containerWidth (onDragMove e s)
      = Some (Math_max (Finite 300)
                (add (dragStartWidth s) (sub (Finite (clientX e)) (dragStartX s)))) /\
      lt (containerHeight (onDragMove e s)) (Finite 200) = false /\
      from_option (fun w => lt w (Finite 300)) false
        (containerWidth (onDragMove e s)) = false) /\
  (forall (e : MouseEvent) (s : State) (h w x y : Z),
      isDragging s = true ->
      dragStartHeight s = Finite h -> dragStartWidth s = Finite w ->
      dragStartX s = Finite x -> dragStartY s = Finite y ->
      containerHeight (onDragMove e s) = Finite (Z.max 200 (h + (clientY e - y))) /\
      containerWidth (onDragMove e s) = Some (Finite (Z.max 300 (w + (clientX e - x))))) /\
  (forall (s : State) (evs : list DragEvent),
      isDragging s = false -> within_bounds s ->
      min_width (container s) -> Forall layout_min_width evs ->
      Forall within_bounds (dragTrace s evs)).
Proof.
  split; [|split].
  - intros e s Hd. destruct (onDragMove_dragging e s Hd) as [Hh Hw].
    split; [exact Hh|]. split; [exact Hw|]. rewrite Hh, Hw. simpl.
    split; apply Math_max_not_below.
  - intros e s h w x y Hd Hh Hw Hx Hy.
    destruct (onDragMove_dragging e s Hd) as [-> ->].
    rewrite Hh, Hw, Hx, Hy. unfold sub, neg, add.
    rewrite !Math_max_Finite. split; repeat f_equal; lia.
  - intros s evs Hd Hb Hc Hevs.
    assert (Hinv : drag_invariant s).
    { split; [exact Hb|]. split; [|exact Hc]. intros Hd'. congruence. }
    apply (Forall_impl _ _ _ (dragTrace_invariant evs s Hinv Hevs)).
    now intros s' [Hb' _].
Qed.

Lemma drag_keeps_minimum_size_witness :
  isDragging dragging_state = true /\
  containerHeight (onDragMove {| clientX := 0; clientY := -900 |} dragging_state)
  = Finite 200 /\
  containerWidth (onDragMove {| clientX := 0; clientY := -900 |} dragging_state)
  = Some (Finite 700).
Proof.
  split; [reflexivity|].
  destruct drag_keeps_minimum_size as (_ & Hfinite & _).
  apply (Hfinite {| clientX := 0; clientY := -900 |} dragging_state 650 800 100 100);
    reflexivity.
Defined.

(** A whole gesture on a fresh component: press at (500, 400), drag far
    up and to the left, release. *)
Example drag_far_up_left :
  map (fun s => (containerHeight s, containerWidth s, isDragging s))
    (dragTrace (set_container (Some {| offsetWidth := 800 |}) (initialState defaultProps))
       [ MouseDown {| clientX := 500; clientY := 400 |};
         MouseMove {| clientX := 450; clientY := 300 |};
         MouseMove {| clientX := -2000; clientY := -3000 |};
         MouseUp;
         MouseMove {| clientX := 900; clientY := 900 |} ])
  = [ (Finite 650, Some (Finite 800), true);
      (Finite 550, Some (Finite 750), true);
      (Finite 200, Some (Finite 300), true);
      (Finite 200, Some (Finite 300), false);
      (Finite 200, Some (Finite 300), false) ].
Proof. reflexivity. Qed.

End Drag.

(** ** The [postMessage] contract *)

Section Messages.
Import JS FullHeightIframe Spec.

Lemma get_or_else_empty (d : value) (k : string) :
  get (or_else d (VObject [])) k = get d k.
Proof.
  unfold or_else. destruct (truthy d) eqn:Ht; [reflexivity|].
  destruct d; try reflexivity; discriminate.
Qed.

Lemma foreignb_true (s : State) (e : MessageEvent) :
  foreignb s e = true <-> foreign s e.
Proof.
  unfold foreignb, foreign. destruct (iframe s) as [f|]; [|tauto].
  rewrite negb_true_iff, bool_decide_eq_false. tauto.
Qed.

Lemma onMessage_foreign (p : Props) (e : MessageEvent) (s : State) :
  foreign s e -> onMessage p e s = s.
Proof.
  unfold foreign, onMessage. destruct (iframe s) as [f|]; [|reflexivity].
  intros Hne. now rewrite bool_decide_eq_false_2.
Qed.

Lemma onMessage_iframe (p : Props) (e : MessageEvent) (s : State) :
  iframe (onMessage p e s) = iframe s.
Proof.
  unfold onMessage. destruct (iframe s) as [f|] eqn:Hf; [|exact Hf].
  destruct (negb _); [exact Hf|].
  repeat match goal with
         | |- context [if ?b then _ else _] => destruct b
         | |- context [match typeof_number ?v with _ => _ end] => destruct (typeof_number v)
         | |- context [postMessage (contentWindow f) _ _] =>
             unfold postMessage; destruct (contentWindow f)
         end; exact Hf.
Qed.

(** The handler, once the guard on the source has been passed. *)
Lemma onMessage_from_iframe (p : Props) (e : MessageEvent) (s : State) (w : Window) :
  from_iframe s w e ->
  onMessage p e s =
  let s1 :=
    if is_string (message_type e) "iframe:height" then
      match typeof_number (get (data e) "height") with
      | Some height => set_containerHeight (Math_max (Finite 200) height) s
      | None => s
      end
    else s in
  let s2 :=
    if is_string (message_type e) "pong" then
      postMessage (Some w) pongAck
        (console_log [VString "Received pong from iframe:"; or_else (data e) (VObject [])] s1)
    else s1 in
  if is_string (message_type e) "payload" then
    postMessage (Some w) (payloadReply (request_id e) (payload p)) s2
  else s2.
Proof.
  intros (f & Hf & Hw & Hsrc). unfold onMessage, message_type, request_id.
  rewrite Hf, Hw, Hsrc. simpl. rewrite bool_decide_eq_true_2 by reflexivity. simpl.
  rewrite !get_or_else_empty.
  replace (nullish (get (data e) "requestId") VNull)
    with (match get (data e) "requestId" with VUndefined => VNull | v => v end)
    by (now destruct (get (data e) "requestId")).
  reflexivity.
Qed.

Lemma is_string_true (v : value) (s : string) : is_string v s = true <-> v = VString s.
Proof.
  destruct v; simpl; try (split; [discriminate|congruence]).
  rewrite String.eqb_eq. split; congruence.
Qed.

Lemma message_type_truthy (e : MessageEvent) (ty : string) :
  message_type e = VString ty -> or_else (data e) (VObject []) = data e.
Proof.
  unfold message_type, or_else. destruct (data e); simpl; try discriminate. reflexivity.
Qed.

Lemma onMessages_filter (p : Props) (s0 : State) (evs : list MessageEvent) :
  forall s, iframe s = iframe s0 ->
            onMessages p s evs
            = onMessages p s (List.filter (fun e => negb (foreignb s0 e)) evs).
Proof.
  induction evs as [|e evs IH]; intros s Hs; [reflexivity|].
  simpl. destruct (foreignb s0 e) eqn:Hfb; simpl.
  - assert (Hf : foreign s e).
    { apply foreignb_true. unfold foreignb in *. now rewrite Hs. }
    rewrite (onMessage_foreign p e s Hf). now apply IH.
  - apply IH. now rewrite onMessage_iframe.
Qed.

(** C8.  A message whose source is not the window of the embedded iframe,
    or that arrives while no iframe is mounted, changes nothing: the state
    after the handler is the state before it, so [containerHeight] is the
    same and nothing was posted.  Consequently two sequences of messages
    that differ only in such foreign messages leave the component in the
    same state, with the same messages posted. *)
Theorem foreign_messages_have_no_effect (p : Props) (s : State) :
  (forall e, foreign s e -> onMessage p e s = s) /\
  (forall evs,
      onMessages p s evs
      = onMessages p s (List.filter (fun e => negb (foreignb s e)) evs)) /\
  (forall evs1 evs2,
      List.filter (fun e => negb (foreignb s e)) evs1
      = List.filter (fun e => negb (foreignb s e)) evs2 ->
      onMessages p s evs1 = onMessages p s evs2).
Proof.
  split; [|split].
  - intros e. apply onMessage_foreign.
  - intros evs. now apply onMessages_filter.
  - intros evs1 evs2 Heq.
    rewrite (onMessages_filter p s evs1 s eq_refl).
    rewrite (onMessages_filter p s evs2 s eq_refl).
    now rewrite Heq.
Qed.

(** C2.  For a message whose source is the window of the embedded
    iframe, on the fields of the component.  With type [iframe:height] and
    a numeric [height], [containerHeight] becomes [Math.max(200, height)]
    (the larger of 200 and the height when it is finite) and nothing is
    posted or logged.  With type [pong], [{type: 'pong:ack'}] is posted to
    the iframe, after the message has been logged, and [containerHeight]
    stays.  With type [payload], [{type: 'payload', requestId, payload}] is
    posted to the iframe, [requestId] being the request's or [null] and
    [payload] the prop, and [containerHeight] stays.  In the three cases
    every other field is as before.  With any other type, or with a height
    that is not a number, the state is unchanged: no field changes and
    nothing is posted. *)
Theorem onMessage_contract (p : Props) (e : MessageEvent) (s : State) (w : Window) :
  from_iframe s w e ->
  let s' := onMessage p e s in
  (forall height,
      message_type e = VString "iframe:height" ->
      get (data e) "height" = VNumber height ->
      containerHeight s' = max_200 height /\
      (forall z, height = Finite z -> containerHeight s' = Finite (Z.max 200 z)) /\
      posted s' = posted s /\ logged s' = logged s /\ same_layout s s') /\
  (message_type e = VString "iframe:height" -> height_not_a_number e -> s' = s) /\
  (message_type e = VString "pong" ->
   posted s' = posted s ++ [(windowId w, pong_ack_message)] /\
   logged s' = logged s ++ [[VString "Received pong from iframe:"; data e]] /\
   containerHeight s' = containerHeight s /\ same_layout s s') /\
  (message_type e = VString "payload" ->
   posted s' = posted s ++ [(windowId w, payload_message (request_id e) (payload p))] /\
   logged s' = logged s /\
   containerHeight s' = containerHeight s /\ same_layout s s') /\
  (message_type e <> VString "iframe:height" ->
   message_type e <> VString "pong" ->
   message_type e <> VString "payload" ->
   s' = s).
Proof.
  intros Hfrom s'. subst s'. rewrite (onMessage_from_iframe p e s w Hfrom).
  split; [|split; [|split; [|split]]].
  - intros height Hty Hh. rewrite Hty, Hh. cbn.
    split; [now destruct height as [| |z|]; cbn; try destruct (200 <? z) eqn:E;
              try (apply Z.ltb_lt in E); try (apply Z.ltb_ge in E);
              f_equal; lia|].
    split; [intros z ->; cbn; destruct (200 <? z) eqn:E;
              [apply Z.ltb_lt in E | apply Z.ltb_ge in E]; f_equal; lia|].
    repeat split.
  - intros Hty Hnot. rewrite Hty.
    destruct (get (data e) "height") eqn:Hh; try reflexivity.
    now destruct (Hnot n).
  - intros Hty. rewrite (message_type_truthy e _ Hty), Hty. cbn. repeat split.
  - intros Hty. rewrite Hty. cbn. repeat split.
  - intros H1 H2 H3.
    destruct (is_string (message_type e) "iframe:height") eqn:E1;
      [now apply is_string_true in E1|].
    destruct (is_string (message_type e) "pong") eqn:E2;
      [now apply is_string_true in E2|].
    destruct (is_string (message_type e) "payload") eqn:E3;
      [now apply is_string_true in E3|].
    reflexivity.
Qed.

Lemma onMessage_contract_witness :
  from_iframe mounted_state {| windowId := 7; document := Throw "SecurityError" |}
    {| source := Some 7%nat;
       data := VObject [("type", VString "payload"); ("requestId", VNumber (Finite 3))] |} /\
  posted
    (onMessage trustedProps
       {| source := Some 7%nat;
          data := VObject [("type", VString "payload"); ("requestId", VNumber (Finite 3))] |}
       mounted_state)
  = [(7%nat, VObject [("type", VString "payload"); ("requestId", VNumber (Finite 3));
                      ("payload", VNull)])].
Proof.
  assert (Hfrom : from_iframe mounted_state
                    {| windowId := 7; document := Throw "SecurityError" |}
                    {| source := Some 7%nat;
                       data := VObject [("type", VString "payload");
                                        ("requestId", VNumber (Finite 3))] |}).
  { exists embedded. repeat split; reflexivity. }
  split; [exact Hfrom|].
  destruct (onMessage_contract trustedProps _ _ _ Hfrom) as (_ & _ & _ & Hpayload & _).
  apply Hpayload. reflexivity.
Defined.

(** The three replies on concrete messages. *)
Example message_height :
  containerHeight
    (onMessage defaultProps
       {| source := Some 7%nat;
          data := VObject [("type", VString "iframe:height"); ("height", VNumber (Finite 120))] |}
       mounted_state)
  = Finite 200.
Proof. reflexivity. Qed.

Example message_pong :
  posted
    (onMessage defaultProps
       {| source := Some 7%nat; data := VObject [("type", VString "pong")] |}
       mounted_state)
  = [(7%nat, VObject [("type", VString "pong:ack")])].
Proof. reflexivity. Qed.

Example message_from_elsewhere :
  onMessage defaultProps
    {| source := Some 8%nat;
       data := VObject [("type", VString "iframe:height"); ("height", VNumber (Finite 9000))] |}
    mounted_state
  = mounted_state.
Proof. reflexivity. Qed.

End Messages.

(** ** The [isLoading] store *)

Section Loading.
Import I18n Spec.

Lemma no_keys_true (resources : Resources) :
  no_keys resources = true <-> zero_keys resources.
Proof.
  unfold no_keys, zero_keys. rewrite bool_decide_eq_true, length_zero_iff_nil.
  rewrite elements_empty_iff, dom_empty_iff. apply map_empty.
Qed.

Lemma run_snoc (evs : list Event) (ev : Event) :
  run (evs ++ [ev]) = emit i18next ev (run evs).
Proof. unfold run. now rewrite fold_left_app. Qed.

Lemma emit_isLoading (ev : Event) (st : Stores) :
  isLoading (emit i18next ev st)
  = match ev with
    | Loaded resources => no_keys resources
    | FailedLoading _ _ _ => true
    | _ => isLoading st
    end.
Proof. destruct ev; reflexivity. Qed.

(** C6.  The [isLoading] store starts at [false].  After every [loaded]
    event it holds [true] exactly when the resources object of the event has
    no key; after every [failedLoading] event it holds [true]; every other
    event of the i18next instance leaves it as it was. *)
Theorem isLoading_follows_i18n_events :
  isLoading (run []) = false /\
  (forall evs resources,
      isLoading (run (evs ++ [Loaded resources])) = true <-> zero_keys resources) /\
  (forall evs lng ns msg,
      isLoading (run (evs ++ [FailedLoading lng ns msg])) = true) /\
  (forall evs ev,
      other_event ev -> isLoading (run (evs ++ [ev])) = isLoading (run evs)).
Proof.
  split; [reflexivity|]. split; [|split].
  - intros evs resources. rewrite run_snoc, emit_isLoading. apply no_keys_true.
  - intros evs lng ns msg. now rewrite run_snoc, emit_isLoading.
  - intros evs ev Hev. rewrite run_snoc, emit_isLoading.
    destruct ev; try reflexivity; destruct Hev.
Qed.

(** A first load that brings nothing, then one that brings [en-US]. *)
Example loading_then_loaded :
  map isLoading
    [ run [Initialized];
      run [Initialized; Loaded ∅];
      run [Initialized; Loaded ∅; LanguageChanged "en-US"];
      run [Initialized; Loaded ∅; LanguageChanged "en-US";
           Loaded {[ "en-US" := {[ "translation" := true ]} ]}];
      run [Initialized; Loaded ∅; LanguageChanged "en-US";
           Loaded {[ "en-US" := {[ "translation" := true ]} ]};
           FailedLoading "fr-FR" "translation" "not found"] ]
  = [false; true; true; false; true].
Proof. vm_compute. reflexivity. Qed.

End Loading.

(** ** Sign-in and sign-up *)

Section SignIn.
Import JS Auth Spec.

Lemma gotos_app (a b : list Effect) : gotos (a ++ b) = gotos a ++ gotos b.
Proof. apply omap_app. Qed.

Lemma string_or_destination (form : Form) :
  string_or (redirectParam form) "/" = destination form.
Proof.
  unfold string_or, destination. destruct (redirectParam form) as [[|c r]|]; reflexivity.
Qed.

(** [setSessionUser] with a session user. *)
Lemma setSessionUser_signed_in (api : Api) (form : Form) (pg : Page) (u : SessionUser) :
  signed_in api form pg u (setSessionUser api form (Some u) None pg).
Proof.
  unfold signed_in, setSessionUser.
  cbv [mbind mret Async_bind Async_ret await effect when localStorage_set user_set
       config_set localStorage_removeItem].
  destruct (getBackendConfig api) as [cfg|error];
    destruct (token_truthy u) eqn:Htok;
    destruct (string_truthy (getUserTimezone api));
    cbn [andb from_option localStorage user config effects fst snd];
    (split; [reflexivity|]); split.
  all: try (intros cfg' [= <-]; split; [reflexivity|];
            rewrite !gotos_app, string_or_destination; cbn; now rewrite !app_nil_r).
  all: try (intros cfg' Hcfg; discriminate).
  all: intros tok [Htoken Hne].
  all: try (rewrite lookup_delete_ne by discriminate).
  all: try (rewrite lookup_insert_eq, Htoken; reflexivity).
  all: unfold token_truthy in Htok; rewrite Htoken in Htok;
    destruct tok; [congruence | discriminate].
Qed.

Lemma handler_signed_in (api : Api) (form : Form) (pg : Page)
    (u : SessionUser) (call : completion string (option SessionUser)) :
  call = Normal (Some u) ->
  signed_in api form pg u
    ((sessionUser ← catch (await call) (fun error => effect (ToastError error);; mret None);
      setSessionUser api form sessionUser None) pg).
Proof. intros ->. apply setSessionUser_signed_in. Qed.

Lemma handler_rejected (api : Api) (form : Form) (pg : Page)
    (error : string) (call : completion string (option SessionUser)) :
  call = Throw error ->
  (sessionUser ← catch (await call) (fun error => effect (ToastError error);; mret None);
   setSessionUser api form sessionUser None) pg = (Normal tt, toast_only error pg).
Proof. intros ->. reflexivity. Qed.

Lemma signUpHandler_calls_api (api : Api) (form : Form) (pg : Page) :
  confirmation_passes form pg ->
  signUpHandler api form pg
  = (sessionUser ←
       catch (await (userSignUp api (name form) (email form) (password form)
                       (generateInitialsImage api (name form))))
             (fun error => effect (ToastError error);; mret None);
     setSessionUser api form sessionUser None) pg.
Proof.
  intros Hpass. unfold signUpHandler.
  cbv [mbind Async_bind get_config].
  destruct Hpass as [-> | ->]; [reflexivity|].
  rewrite String.eqb_refl. now rewrite andb_false_r.
Qed.

(** C3, as the code has it.  When the auth API answers a sign-in or a
    sign-up with a session user, the user store holds that user and a
    non-empty token is stored under [token] in [localStorage]; once the
    backend configuration has been fetched the handler completes and the
    page has navigated once, to the [redirect] parameter of the URL if it is
    present and not empty, otherwise to [/].  When the auth API call
    rejects, an error toast is shown and nothing else happens:
    [localStorage] and the stores are as they were and there is no
    navigation. *)
Theorem sign_in_and_sign_up_outcomes (api : Api) (form : Form) (pg : Page) :
  (forall u,
      userSignIn api (email form) (password form) = Normal (Some u) ->
      signed_in api form pg u (signInHandler api form pg)) /\
  (forall error,
      userSignIn api (email form) (password form) = Throw error ->
      signInHandler api form pg = (Normal tt, toast_only error pg)) /\
  (forall u,
      confirmation_passes form pg ->
      userSignUp api (name form) (email form) (password form)
        (generateInitialsImage api (name form)) = Normal (Some u) ->
      signed_in api form pg u (signUpHandler api form pg)) /\
  (forall error,
      confirmation_passes form pg ->
      userSignUp api (name form) (email form) (password form)
        (generateInitialsImage api (name form)) = Throw error ->
      signUpHandler api form pg = (Normal tt, toast_only error pg)).
Proof.
  split; [|split; [|split]].
  - intros u Hcall. now apply handler_signed_in.
  - intros error Hcall. now apply handler_rejected.
  - intros u Hpass Hcall. rewrite (signUpHandler_calls_api _ _ _ Hpass).
    now apply handler_signed_in.
  - intros error Hpass Hcall. rewrite (signUpHandler_calls_api _ _ _ Hpass).
    now apply handler_rejected.
Qed.

Lemma sign_in_and_sign_up_outcomes_witness :
  userSignIn backend_up "ada@example.com" "secret" = Normal (Some ada) /\
  signed_in backend_up (form_with_redirect (Some "/c/42")) fresh_page ada
    (signInHandler backend_up (form_with_redirect (Some "/c/42")) fresh_page).
Proof.
  split; [reflexivity|].
  destruct (sign_in_and_sign_up_outcomes backend_up (form_with_redirect (Some "/c/42"))
              fresh_page) as (Hin & _).
  apply (Hin ada). reflexivity.
Defined.

(** C3 as it is worded fails on the page [/auth?redirect=]: the parameter
    is present, with the empty string as its value, and the page goes to
    [/]. *)
Lemma empty_redirect_counterexample :
  userSignIn backend_up "ada@example.com" "secret" = Normal (Some ada) /\
  redirectParam (form_with_redirect (Some EmptyString)) = Some EmptyString /\
  gotos (effects (signInHandler backend_up (form_with_redirect (Some EmptyString))
                    fresh_page).2)
  = ["/"] /\
  gotos (effects (signInHandler backend_up (form_with_redirect (Some EmptyString))
                    fresh_page).2)
  <> [claimed_destination (form_with_redirect (Some EmptyString))].
Proof.
  split; [reflexivity|]. split; [reflexivity|]. split; [reflexivity|].
  vm_compute. discriminate.
Qed.

(** What the handlers do on concrete pages. *)
Example sign_in_rejected :
  signInHandler
    {| userSignIn := fun _ _ => Throw "The email or password provided is incorrect.";
       userSignUp := fun _ _ _ _ => Throw "unused";
       getBackendConfig := Normal {| enable_signup_password_confirmation := true |};
       getUserTimezone := "Europe/Paris";
       generateInitialsImage := fun name => name;
       t := fun s => s |}
    (form_with_redirect None) fresh_page
  = (Normal tt,
     {| localStorage := ∅; user := None; config := None;
        effects := [ToastError "The email or password provided is incorrect."] |}).
Proof. reflexivity. Qed.

Example sign_in_accepted :
  (signInHandler backend_up (form_with_redirect None) fresh_page).2
  = {| localStorage := {[ "token" := "jwt-ada" ]};
       user := Some ada;
       config := Some {| enable_signup_password_confirmation := true |};
       effects := [ConsoleLog ada; ToastSuccess "You're now logged in.";
                   SocketEmit "user-join" (Some "jwt-ada");
                   UpdateUserTimezone "jwt-ada" "Europe/Paris"; Goto "/"] |}.
Proof. vm_compute. reflexivity. Qed.

Example sign_in_backend_config_unreachable :
  signInHandler
    {| userSignIn := fun _ _ => Normal (Some ada);
       userSignUp := fun _ _ _ _ => Throw "unused";
       getBackendConfig := Throw "TypeError: Failed to fetch";
       getUserTimezone := "Europe/Paris";
       generateInitialsImage := fun name => name;
       t := fun s => s |}
    (form_with_redirect None) fresh_page
  = (Throw "TypeError: Failed to fetch",
     {| localStorage := {[ "token" := "jwt-ada" ]};
        user := Some ada;
        config := None;
        effects := [ConsoleLog ada; ToastSuccess "You're now logged in.";
                    SocketEmit "user-join" (Some "jwt-ada")] |}).
Proof. vm_compute. reflexivity. Qed.

Example sign_up_passwords_differ :
  signUpHandler backend_up
    {| mode := signup; name := "Ada"; email := "ada@example.com";
       password := "secret"; confirmPassword := "secrte"; redirectParam := None |}
    {| localStorage := ∅; user := None;
       config := Some {| enable_signup_password_confirmation := true |};
       effects := [] |}
  = (Normal tt,
     {| localStorage := ∅; user := None;
        config := Some {| enable_signup_password_confirmation := true |};
        effects := [ToastError "Passwords do not match."] |}).
Proof. reflexivity. Qed.

End SignIn.

(** ** More on the corner drag *)

Section DragGesture.
Import JS FullHeightIframe Spec.

Lemma onDragMove_anchor (e : MouseEvent) (s : State) :
  isDragging (onDragMove e s) = isDragging s /\
  dragStartX (onDragMove e s) = dragStartX s /\
  dragStartY (onDragMove e s) = dragStartY s /\
  dragStartHeight (onDragMove e s) = dragStartHeight s /\
  dragStartWidth (onDragMove e s) = dragStartWidth s.
Proof. unfold onDragMove. destruct (isDragging s) eqn:Hd; simpl; auto. Qed.

Lemma onDragMove_absorbs (e1 e2 : MouseEvent) (s : State) :
  onDragMove e2 (onDragMove e1 s) = onDragMove e2 s.
Proof. unfold onDragMove. destruct (isDragging s) eqn:Hd; simpl; now rewrite Hd. Qed.

(** X1.  During a drag only the last pointer position counts: after any
    run of [mousemove] events the component is in the state the last one
    alone would have produced. *)
Theorem drag_last_move_wins (moves : list MouseEvent) (e : MouseEvent) (s : State) :
  onDragMoves (moves ++ [e]) s = onDragMove e s.
Proof.
  unfold onDragMoves. rewrite fold_left_app. simpl.
  revert s. induction moves as [|m moves IH]; intros s; [reflexivity|].
  simpl. rewrite IH. apply onDragMove_absorbs.
Qed.

Lemma add_Finite_0 (a : number) : add a (Finite 0) = a.
Proof. destruct a; simpl; try reflexivity. f_equal. lia. Qed.

Lemma Math_max_at_least_id (lo : Z) (x : number) :
  at_least lo x -> Math_max (Finite lo) x = x.
Proof.
  destruct x as [| |z|]; simpl; try tauto. intros H.
  unfold Math_max, lt. destruct (Z.ltb_spec lo z); f_equal; lia.
Qed.

Lemma onDragMoves_anchor (moves : list MouseEvent) (s : State) :
  isDragging (onDragMoves moves s) = isDragging s /\
  dragStartX (onDragMoves moves s) = dragStartX s /\
  dragStartY (onDragMoves moves s) = dragStartY s /\
  dragStartHeight (onDragMoves moves s) = dragStartHeight s /\
  dragStartWidth (onDragMoves moves s) = dragStartWidth s.
Proof.
  unfold onDragMoves. revert s. induction moves as [|m moves IH]; intros s; [auto|].
  simpl. destruct (IH (onDragMove m s)) as (-> & -> & -> & -> & ->).
  apply onDragMove_anchor.
Qed.

(** X2.  Bringing the pointer back to where the grip was pressed restores
    the size the container had at that moment, whatever the pointer did in
    between, provided that size respected the minimum of 200 by 300 pixels
    and the width was a pixel width. *)
Theorem drag_back_to_start_restores (press : MouseEvent) (moves : list MouseEvent)
    (s : State) (w : number) :
  at_least 200 (containerHeight s) ->
  containerWidth s = Some w -> at_least 300 w ->
  let s' := onDragMove press (onDragMoves moves (onDragStart press s)) in
  containerHeight s' = containerHeight s /\ containerWidth s' = containerWidth s.
Proof.
  intros Hh Hw Hw300 s'. unfold s', onDragMove.
  destruct (onDragMoves_anchor moves (onDragStart press s)) as (-> & -> & -> & -> & ->).
  assert (Hsh : dragStartHeight (onDragStart press s) = containerHeight s) by reflexivity.
  assert (Hsw : dragStartWidth (onDragStart press s) = w).
  { cbn [onDragStart dragStartWidth]. now rewrite Hw. }
  assert (Hdx : sub (Finite (clientX press)) (dragStartX (onDragStart press s)) = Finite 0).
  { cbn [onDragStart dragStartX sub neg add]. f_equal. lia. }
  assert (Hdy : sub (Finite (clientY press)) (dragStartY (onDragStart press s)) = Finite 0).
  { cbn [onDragStart dragStartY sub neg add]. f_equal. lia. }
  cbn [onDragStart isDragging negb]. fold (onDragStart press s).
  cbn [set_containerWidth set_containerHeight containerHeight containerWidth].
  rewrite Hsh, Hsw, Hdx, Hdy, !add_Finite_0.
  rewrite (Math_max_at_least_id 200 _ Hh), (Math_max_at_least_id 300 _ Hw300).
  now rewrite Hw.
Qed.

Lemma drag_back_to_start_restores_witness :
  at_least 200 (containerHeight dragging_state) /\
  containerWidth dragging_state = Some (Finite 800) /\
  at_least 300 (Finite 800) /\
  containerHeight
    (onDragMove {| clientX := 40; clientY := 50 |}
       (onDragMoves [ {| clientX := 900; clientY := -70 |} ]
          (onDragStart {| clientX := 40; clientY := 50 |} dragging_state)))
  = containerHeight dragging_state.
Proof.
  split; [simpl; lia|]. split; [reflexivity|]. split; [simpl; lia|].
  apply (drag_back_to_start_restores {| clientX := 40; clientY := 50 |}
           [ {| clientX := 900; clientY := -70 |} ] dragging_state (Finite 800));
    [simpl; lia | reflexivity | simpl; lia].
Defined.

(** X3.  Pressing and releasing the grip without moving leaves the height
    as it was, ends the drag and puts the body styles back; but when the
    width was still [null] (full width) it is now pinned to the width the
    container had on the press. *)
Theorem click_on_grip_pins_width (e : MouseEvent) (s : State) (c : HTMLDivElement) :
  container s = Some c -> containerWidth s = None ->
  let s' := dragStep (dragStep s (MouseDown e)) MouseUp in
  containerWidth s' = Some (Finite (offsetWidth c)) /\
  containerHeight s' = containerHeight s /\
  isDragging s' = false /\ documentListeners s' = false /\
  bodyUserSelect s' = EmptyString /\ bodyCursor s' = EmptyString.
Proof.
  intros Hc Hw. simpl. rewrite Hc, Hw. simpl. repeat split.
Qed.

Lemma click_on_grip_pins_width_witness :
  container mounted_state = Some {| offsetWidth := 800 |} /\
  containerWidth mounted_state = None /\
  containerWidth
    (dragStep (dragStep mounted_state (MouseDown {| clientX := 1; clientY := 2 |})) MouseUp)
  = Some (Finite 800).
Proof.
  split; [reflexivity|]. split; [reflexivity|].
  apply (click_on_grip_pins_width {| clientX := 1; clientY := 2 |} mounted_state
           {| offsetWidth := 800 |}); reflexivity.
Defined.

Lemma dragStep_listeners_match (s : State) (ev : DragEvent) :
  listeners_match s -> listeners_match (dragStep s ev).
Proof.
  intros (Hl & Hu & Hc). destruct ev as [e|e| |c]; simpl.
  - repeat split.
  - rewrite Hl. unfold onDragMove.
    destruct (isDragging s) eqn:Hd; simpl; unfold listeners_match; simpl;
      rewrite ?Hd; auto.
  - rewrite Hl. destruct (isDragging s) eqn:Hd; [repeat split|].
    unfold listeners_match. now rewrite Hd.
  - repeat split; assumption.
Qed.

(** X4.  From a state where the document listeners and the body styles
    agree with [isDragging] (as in the initial state), they agree after
    every event of any sequence: the listeners are registered and the body
    has [user-select: none] and the resize cursor exactly while a drag is in
    progress.  Outside a drag, [mousemove] and [mouseup] change nothing. *)
Theorem drag_listeners_follow_isDragging (s : State) (evs : list DragEvent) :
  listeners_match s ->
  Forall listeners_match (dragTrace s evs) /\
  (isDragging s = false ->
   forall e, dragStep s (MouseMove e) = s /\ dragStep s MouseUp = s).
Proof.
  intros Hs. split.
  - revert s Hs. induction evs as [|ev evs IH]; intros s Hs; simpl; [constructor|].
    assert (Hs' := dragStep_listeners_match s ev Hs).
    constructor; [exact Hs'|now apply IH].
  - intros Hd e. destruct Hs as (Hl & _). simpl. now rewrite Hl, Hd.
Qed.

Lemma drag_listeners_follow_isDragging_witness :
  listeners_match (initialState defaultProps) /\
  Forall listeners_match
    (dragTrace (initialState defaultProps)
       [MouseDown {| clientX := 5; clientY := 5 |}; MouseUp]).
Proof.
  assert (H : listeners_match (initialState defaultProps)) by (repeat split).
  split; [exact H|].
  apply (drag_listeners_follow_isDragging (initialState defaultProps)
           [MouseDown {| clientX := 5; clientY := 5 |}; MouseUp] H).
Defined.

End DragGesture.

(** ** More on the messages *)

Section MessageEffects.
Import JS FullHeightIframe Spec.

Lemma same_layout_refl (s : State) : same_layout s s.
Proof. repeat split. Qed.

Lemma same_layout_trans (s1 s2 s3 : State) :
  same_layout s1 s2 -> same_layout s2 s3 -> same_layout s1 s3.
Proof.
  unfold same_layout. intros H1 H2.
  decompose [and] H1. decompose [and] H2. repeat split; congruence.
Qed.

Lemma onMessage_layout (p : Props) (e : MessageEvent) (s : State) :
  same_layout s (onMessage p e s).
Proof.
  unfold onMessage. destruct (iframe s) as [f|] eqn:Hf; [|apply same_layout_refl].
  destruct (negb _); [apply same_layout_refl|].
  repeat match goal with
         | |- context [if ?b then _ else _] => destruct b
         | |- context [match typeof_number ?v with _ => _ end] => destruct (typeof_number v)
         | |- context [postMessage (contentWindow f) _ _] =>
             unfold postMessage; destruct (contentWindow f)
         end; repeat split.
Qed.

(** X5.  Whatever message arrives, from whatever window, the handler
    touches nothing but [containerHeight], the posted messages and the
    console: the width, the iframe and container bindings, the state of a
    drag in progress (its anchor and start size), the body styles and the
    document listeners are as before, after one message and after any
    sequence of messages. *)
Theorem messages_leave_layout_and_drag_alone (p : Props) (evs : list MessageEvent)
    (s : State) :
  same_layout s (onMessages p s evs).
Proof.
  unfold onMessages. revert s. induction evs as [|e evs IH]; intros s; simpl.
  - apply same_layout_refl.
  - eapply same_layout_trans; [apply (onMessage_layout p e s)|apply IH].
Qed.

Lemma onMessage_posted (p : Props) (e : MessageEvent) (s : State) :
  exists replies,
    posted (onMessage p e s) = posted s ++ replies /\
    (length replies <= 1)%nat /\
    Forall (fun r => Some r.1 = iframe_window s /\ is_reply p r.2) replies.
Proof.
  unfold onMessage, iframe_window. destruct (iframe s) as [f|] eqn:Hf.
  2: { exists []. rewrite app_nil_r. repeat split; [simpl; lia|constructor]. }
  destruct (negb _).
  { exists []. rewrite app_nil_r. repeat split; [simpl; lia|constructor]. }
  set (d := or_else (data e) (VObject [])). simpl.
  destruct (is_string (get d "type") "iframe:height") eqn:E1;
    destruct (is_string (get d "type") "pong") eqn:E2;
    destruct (is_string (get d "type") "payload") eqn:E3;
    try (apply is_string_true in E1; apply is_string_true in E2; congruence);
    try (apply is_string_true in E1; apply is_string_true in E3; congruence);
    try (apply is_string_true in E2; apply is_string_true in E3; congruence);
    try destruct (typeof_number (get d "height"));
    destruct (contentWindow f) as [w|] eqn:Hw; simpl.
  all: first
         [ exists []; rewrite app_nil_r;
           split; [reflexivity | split; [simpl; lia | constructor]]
         | eexists [_];
           split; [reflexivity|];
           split; [simpl; lia|];
           constructor; [|constructor];
           split; [reflexivity|];
           first [left; reflexivity | right; eexists; reflexivity] ].
Qed.

Lemma onMessage_iframe_window (p : Props) (e : MessageEvent) (s : State) :
  iframe_window (onMessage p e s) = iframe_window s.
Proof.
  unfold iframe_window. destruct (onMessage_layout p e s) as (-> & _). reflexivity.
Qed.

(** X6.  Whatever messages arrive, the component only ever posts to the
    window of its own iframe, at most one message per message received, and
    each is an acknowledgement [{type: 'pong:ack'}] or the payload reply:
    the [payload] prop is never sent anywhere else, and nothing is posted
    when no iframe is mounted. *)
Theorem replies_go_only_to_the_iframe (p : Props) (evs : list MessageEvent) (s : State) :
  exists replies,
    posted (onMessages p s evs) = posted s ++ replies /\
    (length replies <= length evs)%nat /\
    Forall (fun r => Some r.1 = iframe_window s /\ is_reply p r.2) replies.
Proof.
  unfold onMessages. revert s. induction evs as [|e evs IH]; intros s; simpl.
  - exists []. rewrite app_nil_r. repeat split; [simpl; lia|constructor].
  - destruct (onMessage_posted p e s) as (r1 & Hp1 & Hl1 & Hf1).
    destruct (IH (onMessage p e s)) as (r2 & Hp2 & Hl2 & Hf2).
    exists (r1 ++ r2). rewrite Hp2, Hp1, <- app_assoc. split; [reflexivity|].
    split; [rewrite length_app; simpl; lia|].
    apply Forall_app. split; [exact Hf1|].
    rewrite onMessage_iframe_window in Hf2. exact Hf2.
Qed.

(** X7.  A height posted by the iframe is clamped from below: unless it
    is [NaN], the resulting [containerHeight] is at least 200.  [NaN] is a
    number for [typeof], passes the guard, and makes [containerHeight]
    [NaN]. *)
Theorem posted_height_is_clamped_unless_NaN (p : Props) (e : MessageEvent) (s : State)
    (w : Window) (height : number) :
  from_iframe s w e ->
  message_type e = VString "iframe:height" ->
  get (data e) "height" = VNumber height ->
  (height <> NaN -> at_least 200 (containerHeight (onMessage p e s))) /\
  (height = NaN -> containerHeight (onMessage p e s) = NaN).
Proof.
  intros Hfrom Hty Hh. rewrite (onMessage_from_iframe p e s w Hfrom), Hty, Hh.
  cbn [is_string String.eqb typeof_number]. simpl String.eqb.
  cbn [set_containerHeight containerHeight]. split.
  - intros Hn. now apply Math_max_at_least.
  - intros ->. reflexivity.
Qed.

Lemma posted_height_is_clamped_unless_NaN_witness :
  from_iframe mounted_state {| windowId := 7; document := Throw "SecurityError" |}
    {| source := Some 7%nat;
       data := VObject [("type", VString "iframe:height"); ("height", VNumber NaN)] |} /\
  containerHeight
    (onMessage defaultProps
       {| source := Some 7%nat;
          data := VObject [("type", VString "iframe:height"); ("height", VNumber NaN)] |}
       mounted_state)
  = NaN.
Proof.
  assert (Hfrom : from_iframe mounted_state
                    {| windowId := 7; document := Throw "SecurityError" |}
                    {| source := Some 7%nat;
                       data := VObject [("type", VString "iframe:height");
                                        ("height", VNumber NaN)] |}).
  { exists embedded. repeat split; reflexivity. }
  split; [exact Hfrom|].
  apply (posted_height_is_clamped_unless_NaN defaultProps _ _ _ NaN Hfrom);
    reflexivity.
Defined.

(** X8.  Of two height messages from the iframe only the second counts:
    handling both leaves the component in the state the second alone would
    have produced. *)
Theorem last_posted_height_wins (p : Props) (e1 e2 : MessageEvent) (s : State)
    (w : Window) (h1 h2 : number) :
  from_iframe s w e1 -> from_iframe s w e2 ->
  message_type e1 = VString "iframe:height" -> get (data e1) "height" = VNumber h1 ->
  message_type e2 = VString "iframe:height" -> get (data e2) "height" = VNumber h2 ->
  onMessage p e2 (onMessage p e1 s) = onMessage p e2 s.
Proof.
  intros Hf1 Hf2 Ht1 Hh1 Ht2 Hh2.
  assert (H1 : onMessage p e1 s = set_containerHeight (Math_max (Finite 200) h1) s).
  { rewrite (onMessage_from_iframe p e1 s w Hf1), Ht1, Hh1. reflexivity. }
  assert (Hf2' : from_iframe (onMessage p e1 s) w e2).
  { destruct Hf2 as (f & Hf & Hw & Hsrc). exists f. rewrite onMessage_iframe. auto. }
  rewrite (onMessage_from_iframe p e2 _ w Hf2'), (onMessage_from_iframe p e2 s w Hf2).
  rewrite Ht2, Hh2, H1. reflexivity.
Qed.

Lemma last_posted_height_wins_witness :
  onMessage defaultProps
    {| source := Some 7%nat;
       data := VObject [("type", VString "iframe:height"); ("height", VNumber (Finite 900))] |}
    (onMessage defaultProps
       {| source := Some 7%nat;
          data := VObject [("type", VString "iframe:height"); ("height", VNumber (Finite 10))] |}
       mounted_state)
  = onMessage defaultProps
      {| source := Some 7%nat;
         data := VObject [("type", VString "iframe:height"); ("height", VNumber (Finite 900))] |}
      mounted_state.
Proof.
  apply (last_posted_height_wins defaultProps _ _ mounted_state
           {| windowId := 7; document := Throw "SecurityError" |}
           (Finite 10) (Finite 900));
    try reflexivity; exists embedded; repeat split; reflexivity.
Defined.

End MessageEffects.

(** ** More on measuring *)

Section Measuring.
Import JS FullHeightIframe Spec.

(** X10.  Measuring does not clamp: when the document of the iframe can
    be read and its measured scroll height [h] (the larger of the root's and
    the body's) is positive, [resizeSameOrigin] makes [containerHeight]
    exactly [h + 20] and touches nothing else; unlike the message and drag
    paths it applies no minimum, so a content lower than 180 pixels leaves
    the height under 200. *)
Theorem resizeSameOrigin_does_not_clamp (s : State) (f : HTMLIFrameElement)
    (doc : Document) :
  iframe s = Some f -> accessible f doc -> 0 < measured doc ->
  exists s',
    resizeSameOrigin s = Normal s' /\
    containerHeight s' = Finite (measured doc + 20) /\
    posted s' = posted s /\ logged s' = logged s /\ same_layout s s' /\
    (measured doc < 180 -> ~ at_least 200 (containerHeight s')).
Proof.
  intros Hf Hacc Hpos.
  apply read_document_accessible in Hacc.
  unfold resizeSameOrigin, resizeSameOrigin_try. rewrite Hf, Hacc, measured_Math_max.
  unfold gt, lt, add. destruct (Z.ltb_spec 0 (measured doc)); [|lia].
  eexists. split; [reflexivity|]. cbn.
  split; [reflexivity|]. split; [reflexivity|]. split; [reflexivity|].
  split; [repeat split|]. lia.
Qed.

Lemma resizeSameOrigin_does_not_clamp_witness :
  exists s',
    resizeSameOrigin short_frame_state = Normal s' /\
    containerHeight s' = Finite 120 /\
    ~ at_least 200 (containerHeight s').
Proof.
  destruct (resizeSameOrigin_does_not_clamp short_frame_state
              {| contentDocument :=
                   Some {| documentElement := Some {| scrollHeight := 100 |};
                           body := Some {| scrollHeight := 64 |} |};
                 contentWindow := None |}
              {| documentElement := Some {| scrollHeight := 100 |};
                 body := Some {| scrollHeight := 64 |} |})
    as (s' & Hrun & Hh & _ & _ & _ & Hlow).
  - reflexivity.
  - left. reflexivity.
  - vm_compute. reflexivity.
  - exists s'. split; [exact Hrun|]. split; [exact Hh|].
    apply Hlow. vm_compute. reflexivity.
Defined.

End Measuring.

(** ** More on the injection *)

Section InjectionEffects.
Import JS FullHeightIframe Spec.

Lemma inject_inserts (tags : list string) (html : string) :
  no_dollar (join nl tags) = true ->
  exists pre rest,
    html = pre +:+ rest /\
    inject tags html = pre +:+ inserted_text tags +:+ rest.
Proof.
  intros Hnd. unfold inject, inserted_text. destruct tags as [|t ts].
  { exists EmptyString, html. split; reflexivity. }
  set (tags := join nl (t :: ts)) in *.
  destruct (includes "</head>" html) eqn:Hhead.
  - destruct (replace_first "</head>" (tags +:+ nl +:+ "</head>") html Hhead)
      as (pre & post & [Hhtml _] & Hrep).
    { now rewrite !no_dollar_append, Hnd. }
    exists pre, ("</head>" +:+ post). split; [exact Hhtml|].
    now rewrite Hrep, !append_assoc.
  - destruct (includes "</body>" html) eqn:Hbody.
    + destruct (replace_first "</body>" (tags +:+ nl +:+ "</body>") html Hbody)
        as (pre & post & [Hhtml _] & Hrep).
      { now rewrite !no_dollar_append, Hnd. }
      exists pre, ("</body>" +:+ post). split; [exact Hhtml|].
      now rewrite Hrep, !append_assoc.
    + exists EmptyString, html. split; [reflexivity|].
      now rewrite append_nil, append_assoc.
Qed.

Lemma processHtmlForDeps_inserts (p : Props) (ld : Loader) (html : string) :
  plain_blob_urls ld ->
  exists pre rest,
    html = pre +:+ rest /\
    (processHtmlForDeps p ld html).1
    = pre +:+ inserted_text (if allowSameOrigin p then scriptTags ld html else []) +:+ rest.
Proof.
  intros Hplain. unfold processHtmlForDeps.
  destruct (allowSameOrigin p); simpl.
  - apply inject_inserts. now apply no_dollar_scriptTags.
  - exists EmptyString, html. split; reflexivity.
Qed.

(** X11.  Injection only inserts: the output of [processHtmlForDeps] is
    the HTML cut in two with the tags (joined by newlines, followed by a
    newline) in between, so nothing of the HTML is removed, changed or
    reordered and the output is longer by exactly the inserted text. *)
Theorem processHtmlForDeps_only_inserts (p : Props) (ld : Loader) (html : string) :
  plain_blob_urls ld ->
  let tags := if allowSameOrigin p then scriptTags ld html else [] in
  let out := (processHtmlForDeps p ld html).1 in
  (exists pre rest,
      html = pre +:+ rest /\ out = pre +:+ inserted_text tags +:+ rest) /\
  String.length out
  = (String.length html + String.length (inserted_text tags))%nat.
Proof.
  intros Hplain tags out.
  assert (Hex := processHtmlForDeps_inserts p ld html Hplain).
  split; [exact Hex|].
  unfold out, tags. destruct Hex as (pre & rest & Hhtml & ->).
  rewrite Hhtml at 2. rewrite !length_append. lia.
Qed.

Lemma processHtmlForDeps_only_inserts_witness :
  plain_blob_urls loader_ok /\
  String.length (processHtmlForDeps trustedProps loader_ok "<body>Chart.x</body>").1
  = (String.length "<body>Chart.x</body>"
     + String.length (inserted_text (scriptTags loader_ok "<body>Chart.x</body>")))%nat.
Proof.
  assert (H : plain_blob_urls loader_ok) by (intros code url [= <-]; reflexivity).
  split; [exact H|].
  apply (processHtmlForDeps_only_inserts trustedProps loader_ok "<body>Chart.x</body>" H).
Defined.

Lemma alpineStep_effects (ld : Loader) (html : string) :
  (In ImportAlpine (alpineStep ld html).2 <-> has_alpine_directive html) /\
  ~ In ImportChart (alpineStep ld html).2 /\
  ~ In SetWindowChart (alpineStep ld html).2.
Proof.
  unfold alpineStep, has_alpine_directive. rewrite <- some_included_true.
  destruct (some_included alpineDirectives html);
    [destruct (import_alpine ld) as [code|]; [destruct (createObjectURL ld code)|]|];
    simpl; intuition discriminate.
Qed.

Lemma chartStep_effects (ld : Loader) (html : string) :
  (In ImportChart (chartStep ld html).2 <-> has_chart_directive html) /\
  (In SetWindowChart (chartStep ld html).2 <-> has_chart_directive html /\ chart_loads ld) /\
  ~ In ImportAlpine (chartStep ld html).2.
Proof.
  unfold chartStep, chart_loads. rewrite <- chart_included_true.
  destruct (some_included chartJsDirectives html);
    [destruct (import_chart ld) as [m|] eqn:Hm|]; simpl.
  - intuition (discriminate || eauto).
  - split; [intuition discriminate|]. split; [|intuition discriminate].
    split; [intuition discriminate|]. intros (_ & m & Hm'). discriminate.
  - intuition discriminate.
Qed.

(** X12.  The side effects of [processHtmlForDeps] follow the detection:
    the Alpine bundle is imported exactly when [allowSameOrigin] is set and
    the HTML contains an Alpine directive, Chart.js exactly when it is set
    and the HTML contains a Chart directive, and [window.Chart] of the host
    page is assigned exactly when, moreover, that import succeeds.  With no
    directive in the HTML nothing is imported and the HTML comes back as it
    is. *)
Theorem processHtmlForDeps_effects (p : Props) (ld : Loader) (html : string) :
  let effects := (processHtmlForDeps p ld html).2 in
  (In ImportAlpine effects <-> allowSameOrigin p = true /\ has_alpine_directive html) /\
  (In ImportChart effects <-> allowSameOrigin p = true /\ has_chart_directive html) /\
  (In SetWindowChart effects <->
     allowSameOrigin p = true /\ has_chart_directive html /\ chart_loads ld) /\
  (~ has_alpine_directive html -> ~ has_chart_directive html ->
   processHtmlForDeps p ld html = (html, [])).
Proof.
  unfold processHtmlForDeps.
  destruct (alpineStep_effects ld html) as (Ha1 & Ha2 & Ha3).
  destruct (chartStep_effects ld html) as (Hc1 & Hc2 & Hc3).
  destruct (allowSameOrigin p); simpl.
  - rewrite !in_app_iff. repeat split; try tauto.
    intros Hna Hnc. unfold alpineStep, chartStep.
    destruct (some_included alpineDirectives html) eqn:Ea.
    { apply some_included_true in Ea. now destruct Hna. }
    destruct (some_included chartJsDirectives html) eqn:Ec.
    { apply chart_included_true in Ec. now destruct Hnc. }
    reflexivity.
  - repeat split; try tauto; intros (H & _); discriminate.
Qed.

End InjectionEffects.

(** ** More on the i18n stores *)

Section Republishing.
Import I18n Spec.

Lemma emit_i18nWritable (ev : Event) (st : Stores) :
  i18nWritable_sets (emit i18next ev st)
  = if republishes ev then S (i18nWritable_sets st) else i18nWritable_sets st.
Proof. destruct ev; reflexivity. Qed.

Lemma run_from (evs : list Event) (st : Stores) :
  i18nWritable_sets (fold_left (fun st ev => emit i18next ev st) evs st)
  = (i18nWritable_sets st + length (List.filter republishes evs))%nat.
Proof.
  revert st. induction evs as [|ev evs IH]; intros st; cbn [fold_left List.filter];
    [simpl; lia|].
  rewrite IH, emit_i18nWritable. destruct (republishes ev); simpl; lia.
Qed.

(** X13.  The i18n store is set again once for each [initialized],
    [loaded], [added] and [languageChanged] event and for no other: after
    any sequence of events the number of times it was set is the number of
    such events in the sequence ([failedLoading], [removed] and
    [missingKey] do not republish it). *)
Theorem i18n_store_republished_on_four_events (evs : list Event) :
  i18nWritable_sets (run evs) = length (List.filter republishes evs).
Proof. unfold run. now rewrite run_from. Qed.

Lemma isLoading_not_loaded (evs : list Event) (st : Stores) :
  Forall not_loaded evs -> isLoading st = true ->
  isLoading (fold_left (fun st ev => emit i18next ev st) evs st) = true.
Proof.
  revert st. induction evs as [|ev evs IH]; intros st Hevs Hst; cbn [fold_left];
    [exact Hst|].
  inversion Hevs as [|? ? Hev Hrest]; subst. apply IH; [exact Hrest|].
  rewrite emit_isLoading. destruct ev; try exact Hst; try reflexivity. destruct Hev.
Qed.

(** X14.  Once raised, the loading flag stays raised until something
    loads: after a [failedLoading] event, or a [loaded] event whose
    resources have no key, [isLoading] is [true] and remains [true] through
    every later event that is not a [loaded] event. *)
Theorem isLoading_stays_raised (before after : list Event) (ev : Event) :
  raises_loading ev -> Forall not_loaded after ->
  isLoading (run (before ++ ev :: after)) = true.
Proof.
  intros Hev Hafter. unfold run. rewrite fold_left_app. cbn [fold_left].
  apply isLoading_not_loaded; [exact Hafter|].
  rewrite emit_isLoading. destruct ev; try destruct Hev; [|reflexivity].
  now apply no_keys_true.
Qed.

Lemma isLoading_stays_raised_witness :
  raises_loading (FailedLoading "fr-FR" "translation" "404") /\
  Forall not_loaded [LanguageChanged "en-US"; Added "en-US" "extra"] /\
  isLoading (run ([Initialized] ++ FailedLoading "fr-FR" "translation" "404"
                     :: [LanguageChanged "en-US"; Added "en-US" "extra"])) = true.
Proof.
  split; [exact I|]. split; [repeat constructor|].
  apply (isLoading_stays_raised [Initialized]
           [LanguageChanged "en-US"; Added "en-US" "extra"]
           (FailedLoading "fr-FR" "translation" "404")); [exact I|repeat constructor].
Defined.

End Republishing.

(** ** More on sign-in and sign-up *)

Section SignInEdges.
Import JS Auth AuthMount Spec.

(** X15.  When the auth API resolves without a session user ([null]),
    sign-in does nothing at all: no toast, no token, no user, no
    navigation; the page is exactly as before.  So does sign-up, once the
    password check has let the call happen. *)
Theorem null_session_is_silent (api : Api) (form : Form) (pg : Page) :
  (userSignIn api (email form) (password form) = Normal None ->
   signInHandler api form pg = (Normal tt, pg)) /\
  (confirmation_passes form pg ->
   userSignUp api (name form) (email form) (password form)
     (generateInitialsImage api (name form)) = Normal None ->
   signUpHandler api form pg = (Normal tt, pg)).
Proof.
  split.
  - intros Hcall. unfold signInHandler. cbv [mbind Async_bind catch await].
    now rewrite Hcall.
  - intros Hpass Hcall. rewrite (signUpHandler_calls_api _ _ _ Hpass).
    cbv [mbind Async_bind catch await]. now rewrite Hcall.
Qed.

Lemma setSessionUser_config_rejected (api : Api) (form : Form) (pg : Page)
    (u : SessionUser) (error : string) :
  getBackendConfig api = Throw error ->
  exists pg',
    setSessionUser api form (Some u) None pg = (Throw error, pg') /\
    user pg' = Some u /\ config pg' = config pg /\
    gotos (effects pg') = gotos (effects pg) /\
    timezone_updates (effects pg') = timezone_updates (effects pg) /\
    localStorage pg' !! "redirectPath" = localStorage pg !! "redirectPath".
Proof.
  intros Hcfg. unfold setSessionUser.
  cbv [mbind mret Async_bind Async_ret await effect when localStorage_set user_set
       config_set localStorage_removeItem].
  rewrite Hcfg.
  destruct (token_truthy u);
    cbn [localStorage user config effects];
    (eexists; split; [reflexivity|]);
    cbn [localStorage user config effects];
    unfold gotos, timezone_updates; rewrite !omap_app; cbn; rewrite ?app_nil_r;
    repeat split.
  now rewrite lookup_insert_ne.
Qed.

(** X16.  When the sign-in succeeds but the backend configuration cannot
    be fetched, the handler rejects with that error half-way: the user
    store already holds the user, but the [config] store is untouched, the
    time zone is not sent, the page does not navigate and the
    [redirectPath] entry of [localStorage] is not removed. *)
Theorem sign_in_stops_when_config_fetch_fails (api : Api) (form : Form) (pg : Page)
    (u : SessionUser) (error : string) :
  userSignIn api (email form) (password form) = Normal (Some u) ->
  getBackendConfig api = Throw error ->
  exists pg',
    signInHandler api form pg = (Throw error, pg') /\
    user pg' = Some u /\ config pg' = config pg /\
    gotos (effects pg') = gotos (effects pg) /\
    timezone_updates (effects pg') = timezone_updates (effects pg) /\
    localStorage pg' !! "redirectPath" = localStorage pg !! "redirectPath".
Proof.
  intros Hcall Hcfg.
  destruct (setSessionUser_config_rejected api form pg u error Hcfg) as (pg' & Hrun & H).
  exists pg'. split; [|exact H].
  unfold signInHandler. cbv [mbind Async_bind catch await]. rewrite Hcall. exact Hrun.
Qed.

Lemma sign_in_stops_when_config_fetch_fails_witness :
  userSignIn backend_without_config "ada@example.com" "secret" = Normal (Some ada) /\
  getBackendConfig backend_without_config = Throw "TypeError: Failed to fetch" /\
  exists pg',
    signInHandler backend_without_config (form_with_redirect (Some "/c/42")) fresh_page
    = (Throw "TypeError: Failed to fetch", pg') /\
    user pg' = Some ada /\ config pg' = config fresh_page /\
    gotos (effects pg') = gotos (effects fresh_page) /\
    timezone_updates (effects pg') = timezone_updates (effects fresh_page) /\
    localStorage pg' !! "redirectPath" = localStorage fresh_page !! "redirectPath".
Proof.
  split; [reflexivity|]. split; [reflexivity|].
  apply (sign_in_stops_when_config_fetch_fails backend_without_config
           (form_with_redirect (Some "/c/42")) fresh_page ada); reflexivity.
Defined.

(** X17.  When password confirmation is required and the two passwords
    differ, sign-up shows the toast [Passwords do not match.] and stops
    there: the outcome is the same whatever the auth API would have
    answered, so the API is not consulted. *)
Theorem sign_up_password_mismatch_stops (api : Api) (form : Form) (pg : Page) :
  confirmation_fails form pg ->
  signUpHandler api form pg
  = (Normal tt, toast_only (t api "Passwords do not match.") pg).
Proof.
  intros [Hreq Hne]. unfold signUpHandler. cbv [mbind Async_bind get_config].
  rewrite Hreq. apply String.eqb_neq in Hne. rewrite Hne. reflexivity.
Qed.

Lemma sign_up_password_mismatch_stops_witness :
  confirmation_fails
    {| mode := signup; name := "Ada"; email := "ada@example.com";
       password := "secret"; confirmPassword := "secrte"; redirectParam := None |}
    {| localStorage := ∅; user := None;
       config := Some {| enable_signup_password_confirmation := true |};
       effects := [] |} /\
  signUpHandler backend_up
    {| mode := signup; name := "Ada"; email := "ada@example.com";
       password := "secret"; confirmPassword := "secrte"; redirectParam := None |}
    {| localStorage := ∅; user := None;
       config := Some {| enable_signup_password_confirmation := true |};
       effects := [] |}
  = (Normal tt,
     toast_only "Passwords do not match."
       {| localStorage := ∅; user := None;
          config := Some {| enable_signup_password_confirmation := true |};
          effects := [] |}).
Proof.
  assert (H : confirmation_fails
    {| mode := signup; name := "Ada"; email := "ada@example.com";
       password := "secret"; confirmPassword := "secrte"; redirectParam := None |}
    {| localStorage := ∅; user := None;
       config := Some {| enable_signup_password_confirmation := true |};
       effects := [] |}) by (split; [reflexivity|discriminate]).
  split; [exact H|].
  apply (sign_up_password_mismatch_stops backend_up _ _ H).
Defined.

End SignInEdges.

(** ** The page on mount *)

Section Mount.
Import JS Auth AuthMount Spec.

Lemma gotos_snoc_other (effs : list Effect) (e : Effect) :
  (forall url, e <> Goto url) -> gotos (effs ++ [e]) = gotos effs.
Proof.
  intros He. unfold gotos. rewrite omap_app. simpl.
  destruct e; try now rewrite app_nil_r. now destruct (He url).
Qed.

(** X18.  [onMount] always completes and sets [loaded].  A visitor who is
    already signed in is sent to the [redirect] parameter if it is present
    and not empty, otherwise to [/], and [localStorage] is left alone; a
    visitor who is not signed in stays, and a non-empty [redirect] parameter
    is remembered under [redirectPath].  The mode becomes sign-up exactly
    when the URL says [form=signup] (or it already was), and the stores are
    not written. *)
Theorem onMount_outcome (form : Form) (q : Query) (l : Local) (pg : Page) :
  exists l' pg',
    onMount form q l pg = (Normal l', pg') /\
    loaded l' = true /\
    (currentMode l' = signup <-> asks_signup q \/ currentMode l = signup) /\
    user pg' = user pg /\ config pg' = config pg /\
    match user pg with
    | Some _ =>
        gotos (effects pg') = gotos (effects pg) ++ [destination form] /\
        localStorage pg' = localStorage pg
    | None =>
        gotos (effects pg') = gotos (effects pg) /\
        localStorage pg' = remember_redirect form (localStorage pg)
    end.
Proof.
  unfold onMount, remember_redirect, asks_signup.
  cbv [mbind mret Async_bind Async_ret get_user effect when localStorage_setItem
       localStorage_set].
  assert (Hmode : forall m,
             (match formParam q with
              | Some f => if String.eqb f "signup" then signup else m
              | None => m
              end = signup) <-> formParam q = Some "signup" \/ m = signup).
  { intros m. destruct (formParam q) as [f|].
    - destruct (String.eqb_spec f "signup") as [->|Hne].
      + tauto.
      + split; [tauto|]. intros [[= Hf]|Hm]; [now destruct Hne|exact Hm].
    - split; [tauto|]. intros [Hf|Hm]; [discriminate|exact Hm]. }
  destruct (user pg) as [u|] eqn:Hu.
  - destruct (errorParam q) as [[|c r]|];
      cbn [from_option string_truthy localStorage user config effects];
      (eexists _, _; split; [reflexivity|]);
      cbn [loaded currentMode localStorage user config effects];
      (split; [reflexivity|]); (split; [apply Hmode|]);
      (split; [exact Hu|]); (split; [reflexivity|]); (split; [|reflexivity]).
    all: rewrite ?gotos_snoc_other by discriminate.
    all: rewrite gotos_app, string_or_destination; reflexivity.
  - destruct (redirectParam form) as [[|rc rr]|];
      destruct (errorParam q) as [[|c r]|];
      cbn [from_option string_truthy default localStorage user config effects];
      (eexists _, _; split; [reflexivity|]);
      cbn [loaded currentMode localStorage user config effects];
      (split; [reflexivity|]); (split; [apply Hmode|]);
      (split; [exact Hu|]); (split; [reflexivity|]); (split; [|reflexivity]).
    all: rewrite ?gotos_snoc_other by discriminate; reflexivity.
Qed.

Lemma setSessionUser_clears_redirectPath (api : Api) (form : Form) (pg : Page)
    (u : SessionUser) (cfg : Config) :
  getBackendConfig api = Normal cfg ->
  exists pg',
    setSessionUser api form (Some u) None pg = (Normal tt, pg') /\
    localStorage pg' !! "redirectPath" = None /\
    gotos (effects pg') = gotos (effects pg) ++ [destination form].
Proof.
  intros Hcfg. unfold setSessionUser.
  cbv [mbind mret Async_bind Async_ret await effect when localStorage_set user_set
       config_set localStorage_removeItem].
  rewrite Hcfg.
  destruct (token_truthy u);
    destruct (string_truthy (getUserTimezone api));
    cbn [andb from_option localStorage user config effects];
    (eexists; split; [reflexivity|]);
    cbn [localStorage user config effects];
    (split; [apply lookup_delete_eq|]);
    rewrite !gotos_app, string_or_destination; cbn; now rewrite !app_nil_r.
Qed.

(** X19.  The redirect survives the visit: when a visitor who is not
    signed in arrives with a non-empty [redirect] parameter and then signs
    in successfully, the page navigates exactly once, to that parameter, and
    the [redirectPath] entry that [onMount] had put in [localStorage] is
    gone again. *)
Theorem redirect_is_remembered_then_cleared (api : Api) (form : Form) (q : Query)
    (l : Local) (pg : Page) (u : SessionUser) (cfg : Config) (c : ascii) (rest : string) :
  user pg = None ->
  redirectParam form = Some (String c rest) ->
  userSignIn api (email form) (password form) = Normal (Some u) ->
  getBackendConfig api = Normal cfg ->
  exists pg1 pg2 l',
    onMount form q l pg = (Normal l', pg1) /\
    localStorage pg1 !! "redirectPath" = Some (String c rest) /\
    visit_and_sign_in api form q l pg = (Normal tt, pg2) /\
    localStorage pg2 !! "redirectPath" = None /\
    user pg2 = Some u /\
    gotos (effects pg2) = gotos (effects pg) ++ [String c rest].
Proof.
  intros Hu Hr Hcall Hcfg.
  destruct (onMount_outcome form q l pg) as (l' & pg1 & Hmount & _ & _ & _ & _ & Hcase).
  rewrite Hu in Hcase. destruct Hcase as [Hg1 Hls1].
  destruct (setSessionUser_clears_redirectPath api form pg1 u cfg Hcfg)
    as (pg2 & Hrun & Hgone & Hg2).
  destruct (setSessionUser_signed_in api form pg1 u) as (Huser & _).
  exists pg1, pg2, l'. split; [exact Hmount|]. split.
  { rewrite Hls1. unfold remember_redirect. rewrite Hr. apply lookup_insert_eq. }
  assert (Hvisit : visit_and_sign_in api form q l pg = (Normal tt, pg2)).
  { unfold visit_and_sign_in. cbv [mbind Async_bind]. rewrite Hmount.
    unfold signInHandler. cbv [mbind Async_bind catch await]. rewrite Hcall.
    exact Hrun. }
  split; [exact Hvisit|]. split; [exact Hgone|]. split.
  - rewrite Hrun in Huser. exact Huser.
  - rewrite Hg2, Hg1. unfold destination. now rewrite Hr.
Qed.

Lemma redirect_is_remembered_then_cleared_witness :
  user fresh_page = None /\
  redirectParam (form_with_redirect (Some "/c/42")) = Some "/c/42" /\
  exists pg1 pg2 l',
    onMount (form_with_redirect (Some "/c/42"))
      {| errorParam := None; formParam := None |}
      {| currentMode := signin; loaded := false |} fresh_page = (Normal l', pg1) /\
    localStorage pg1 !! "redirectPath" = Some "/c/42" /\
    visit_and_sign_in backend_up (form_with_redirect (Some "/c/42"))
      {| errorParam := None; formParam := None |}
      {| currentMode := signin; loaded := false |} fresh_page = (Normal tt, pg2) /\
    localStorage pg2 !! "redirectPath" = None /\
    user pg2 = Some ada /\
    gotos (effects pg2) = gotos (effects fresh_page) ++ ["/c/42"].
Proof.
  split; [reflexivity|]. split; [reflexivity|].
  apply (redirect_is_remembered_then_cleared backend_up (form_with_redirect (Some "/c/42"))
           {| errorParam := None; formParam := None |}
           {| currentMode := signin; loaded := false |} fresh_page ada
           {| enable_signup_password_confirmation := true |}); reflexivity.
Defined.

(** X20.  A session user without a (non-empty) token is signed in all the
    same: the user store holds it, but the [token] entry of [localStorage]
    is left as it was, so a token stored earlier stays there, and no time
    zone update is sent. *)
Theorem session_without_token_keeps_old_token (api : Api) (form : Form) (pg : Page)
    (u : SessionUser) :
  userSignIn api (email form) (password form) = Normal (Some u) ->
  token_truthy u = false ->
  let pg' := (signInHandler api form pg).2 in
  user pg' = Some u /\
  localStorage pg' !! "token" = localStorage pg !! "token" /\
  timezone_updates (effects pg') = timezone_updates (effects pg).
Proof.
  intros Hcall Htok. unfold signInHandler. cbv [mbind Async_bind catch await].
  rewrite Hcall. unfold setSessionUser.
  cbv [mbind mret Async_bind Async_ret await effect when localStorage_set user_set
       config_set localStorage_removeItem].
  rewrite Htok.
  destruct (getBackendConfig api) as [cfg|error];
    cbn [andb snd localStorage user config effects];
    (split; [reflexivity|]); split;
    rewrite ?lookup_delete_ne by discriminate; try reflexivity;
    unfold timezone_updates; rewrite !omap_app; cbn; now rewrite ?app_nil_r.
Qed.

Lemma session_without_token_keeps_old_token_witness :
  token_truthy {| id := "2"; token := None |} = false /\
  localStorage
    (signInHandler
       {| userSignIn := fun _ _ => Normal (Some {| id := "2"; token := None |});
          userSignUp := fun _ _ _ _ => Throw "unused";
          getBackendConfig := Normal {| enable_signup_password_confirmation := false |};
          getUserTimezone := "Europe/Paris";
          generateInitialsImage := fun name => name;
          t := fun s => s |}
       (form_with_redirect None)
       {| localStorage := {[ "token" := "jwt-of-someone-else" ]};
          user := None; config := None; effects := [] |}).2 !! "token"
  = Some "jwt-of-someone-else".
Proof.
  split; [reflexivity|].
  refine (proj1 (proj2 (session_without_token_keeps_old_token
    {| userSignIn := fun _ _ => Normal (Some {| id := "2"; token := None |});
       userSignUp := fun _ _ _ _ => Throw "unused";
       getBackendConfig := Normal {| enable_signup_password_confirmation := false |};
       getUserTimezone := "Europe/Paris";
       generateInitialsImage := fun name => name;
       t := fun s => s |}
    (form_with_redirect None)
    {| localStorage := {[ "token" := "jwt-of-someone-else" ]};
       user := None; config := None; effects := [] |}
    {| id := "2"; token := None |} eq_refl eq_refl))).
Defined.

End Mount.

(** ** URL or raw HTML *)

Section UrlDetection.
Import JS FullHeightIframe Embed Spec.

Lemma lower_canonicalize (c : ascii) : lower (canonicalize c) = lower c.
Proof. destruct c as [[] [] [] [] [] [] [] []]; reflexivity. Qed.

Lemma canonicalize_lower (c : ascii) : canonicalize (lower c) = canonicalize c.
Proof. destruct c as [[] [] [] [] [] [] [] []]; reflexivity. Qed.

Lemma canonicalize_eqb (a b : ascii) :
  Ascii.eqb (canonicalize a) (canonicalize b) = true <-> lower a = lower b.
Proof.
  rewrite Ascii.eqb_eq. split; intros H.
  - rewrite <- (lower_canonicalize a), <- (lower_canonicalize b). now rewrite H.
  - rewrite <- (canonicalize_lower a), <- (canonicalize_lower b). now rewrite H.
Qed.

Lemma lowercase_append (a b : string) :
  lowercase (a +:+ b) = lowercase a +:+ lowercase b.
Proof.
  induction a as [|c a IH]; [reflexivity|].
  rewrite append_cons. simpl. now rewrite IH, append_cons.
Qed.

(** [strip_ci] finds a start of [s] that is [pattern] up to letter case. *)
Lemma strip_ci_Some (pattern s rest : string) :
  strip_ci pattern s = Some rest <->
  exists start, s = start +:+ rest /\ lowercase start = lowercase pattern.
Proof.
  revert s. induction pattern as [|a pattern IH]; intros s.
  - simpl. split.
    + intros [= ->]. now exists EmptyString.
    + intros (start & -> & Hl). destruct start; [reflexivity|discriminate].
  - destruct s as [|b s]; simpl.
    + split; [discriminate|]. intros (start & Hs & Hl).
      destruct start; [discriminate|]. rewrite append_cons in Hs. discriminate.
    + destruct (Ascii.eqb (canonicalize a) (canonicalize b)) eqn:Hab.
      * apply canonicalize_eqb in Hab. rewrite IH. split.
        -- intros (start & -> & Hl). exists (String b start).
           rewrite append_cons. simpl. now rewrite Hl, Hab.
        -- intros (start & Hs & Hl). destruct start as [|c start]; [discriminate|].
           rewrite append_cons in Hs. injection Hs as -> ->.
           simpl in Hl. injection Hl as _ Hl. now exists start.
      * split; [discriminate|]. intros (start & Hs & Hl).
        destruct start as [|c start]; [discriminate|].
        rewrite append_cons in Hs. injection Hs as -> ->.
        simpl in Hl. injection Hl as Hc _.
        symmetry in Hc. apply canonicalize_eqb in Hc. congruence.
Qed.

Lemma and_then_append (p1 p2 s : string) :
  and_then (strip_ci p1 s) p2 = strip_ci (p1 +:+ p2) s.
Proof.
  revert s. induction p1 as [|a p1 IH]; intros s; [reflexivity|].
  rewrite append_cons. destruct s as [|b s]; simpl; [reflexivity|].
  destruct (Ascii.eqb (canonicalize a) (canonicalize b)); [apply IH|reflexivity].
Qed.

Lemma test_url_patterns (s : string) :
  test_url s
  = matched (strip_ci "https://" s) || matched (strip_ci "http://" s)
    || matched (strip_ci "//" s).
Proof. unfold test_url. now rewrite !and_then_append. Qed.

Lemma matched_strip_ci (pattern s : string) :
  lowercase pattern = pattern ->
  matched (strip_ci pattern s) = true <->
  exists start rest, s = start +:+ rest /\ lowercase start = pattern.
Proof.
  intros Hp. destruct (strip_ci pattern s) as [rest|] eqn:Hs; simpl.
  - apply strip_ci_Some in Hs as (start & -> & Hl). split; [intros _|reflexivity].
    exists start, rest. now rewrite Hl, Hp.
  - split; [discriminate|]. intros (start & rest & -> & Hl).
    assert (Hsome : strip_ci pattern (start +:+ rest) = Some rest).
    { apply strip_ci_Some. exists start. now rewrite Hl, Hp. }
    congruence.
Qed.

(** X21.  A [src] is taken for a URL exactly when it is a string that
    starts, letter case ignored, with [//], [http://] or [https://]; every
    other string is taken for raw HTML, in particular whatever starts with
    [<], a path such as [/page.html], and URLs of other schemes. *)
Theorem isUrl_characterisation (src : option string) :
  (isUrl src = true <-> exists s, src = Some s /\ starts_like_a_url s) /\
  (forall rest, isUrl (Some ("<" +:+ rest)) = false).
Proof.
  split; [|reflexivity].
  destruct src as [s|]; simpl.
  2: { split; [discriminate|]. intros (s & Hs & _). discriminate. }
  rewrite test_url_patterns, !orb_true_iff.
  rewrite !matched_strip_ci by reflexivity. unfold starts_like_a_url.
  split.
  - intros [[(start & rest & Hs & Hl)|(start & rest & Hs & Hl)]|(start & rest & Hs & Hl)];
      exists s; (split; [reflexivity|]); exists start, rest; rewrite Hl; simpl; tauto.
  - intros (s' & [= <-] & start & rest & Hs & [Hl|[Hl|[Hl|[]]]]); eauto 6.
Qed.

End UrlDetection.

(** ** Source selection *)

Section SourceSelection.
Import JS FullHeightIframe Embed Spec.


Lemma disconnect_not_observing (o : nat) (obs : Observers) :
  ~ In o (observing (disconnect o obs)).
Proof.
  simpl. rewrite filter_In. intros [_ H]. now rewrite Nat.eqb_refl in H.
Qed.



End SourceSelection.

(** ** Observer and timers *)

Section Debounce.
Import JS FullHeightIframe Embed Spec.

Lemma NoDup_map_filter {A B : Type} (f : A -> B) (keep : A -> bool) (l : list A) :
  NoDup (map f l) -> NoDup (map f (List.filter keep l)).
Proof.
  induction l as [|x l IH]; simpl; [auto|].
  intros Hnd. apply NoDup_cons in Hnd as [Hx Hl].
  destruct (keep x); simpl; [|now apply IH].
  apply NoDup_cons. split; [|now apply IH].
  intros Hin. apply Hx. apply list_elem_of_In in Hin. apply list_elem_of_In.
  apply in_map_iff in Hin as (y & Hy & Hiny). apply in_map_iff. exists y.
  split; [exact Hy|]. now apply filter_In in Hiny.
Qed.

Lemma Forall_filter_keep {A : Type} (P : A -> Prop) (keep : A -> bool) (l : list A) :
  Forall P l -> Forall P (List.filter keep l).
Proof. intros H. eapply incl_Forall; [apply incl_filter|exact H]. Qed.

Lemma timers_ok_clearTimeout (h : nat) (t : Timers) :
  timers_ok t -> timers_ok (clearTimeout h t).
Proof.
  intros (Hn & Hnd & Hb & Hr & Hd). unfold timers_ok. simpl.
  split; [exact Hn|]. split; [now apply NoDup_map_filter|].
  split; [now apply Forall_filter_keep|]. split; [exact Hr|].
  now apply Forall_filter_keep.
Qed.

Lemma timers_ok_clear_resizeTimeout (t : Timers) :
  timers_ok t -> timers_ok (clear_resizeTimeout t).
Proof.
  intros Hok. unfold clear_resizeTimeout.
  destruct (resizeTimeout t) as [h|]; [|exact Hok].
  destruct (h =? 0)%nat; [exact Hok|now apply timers_ok_clearTimeout].
Qed.

Lemma timers_ok_setTimeout (delay : Z) (t : Timers) :
  timers_ok t -> delay <> 100 -> timers_ok (setTimeout delay t).2.
Proof.
  intros (Hn & Hnd & Hb & Hr & Hd) Hdelay. unfold timers_ok. simpl.
  split; [lia|]. split; [|split; [|split]].
  - rewrite map_app. simpl. apply NoDup_app. split; [exact Hnd|].
    split; [|apply NoDup_singleton].
    intros h Hin Hin'. apply list_elem_of_In in Hin. apply list_elem_of_singleton in Hin'.
    apply in_map_iff in Hin as (x & Hx & Hinx).
    rewrite List.Forall_forall in Hb. specialize (Hb x Hinx). lia.
  - apply Forall_app. split.
    + eapply Forall_impl; [exact Hb|]. simpl. intros x Hx. lia.
    + constructor; [simpl; lia|constructor].
  - intros h Hh. specialize (Hr h Hh). lia.
  - apply Forall_app. split; [exact Hd|].
    constructor; [|constructor]. simpl. split; [intros H; now destruct Hdelay|].
    intros Hh. specialize (Hr _ Hh). lia.
Qed.

Lemma timers_ok_scheduleRetries (t : Timers) :
  timers_ok t ->
  timers_ok (scheduleRetries t) /\ debounced (scheduleRetries t) = debounced t.
Proof.
  intros Hok. unfold scheduleRetries, retryDelays. cbn [fold_left]. split.
  - repeat (apply timers_ok_setTimeout; [|discriminate]). exact Hok.
  - unfold debounced. simpl. rewrite <- !app_assoc. rewrite List.filter_app. simpl.
    now rewrite app_nil_r.
Qed.

Lemma clear_resizeTimeout_no_debounced (t : Timers) :
  timers_ok t -> debounced (clear_resizeTimeout t) = [].
Proof.
  intros (Hn & Hnd & Hb & Hr & Hd). unfold debounced, clear_resizeTimeout.
  assert (Hnone : forall l : list (nat * Z),
             (forall x, In x l -> x.2 <> 100) -> List.filter (fun x => x.2 =? 100) l = []).
  { induction l as [|x l IH]; intros Hl; [reflexivity|]. simpl.
    destruct (Z.eqb_spec x.2 100) as [Heq|_].
    - now destruct (Hl x (or_introl eq_refl)).
    - apply IH. intros y Hy. apply Hl. now right. }
  rewrite List.Forall_forall in Hb, Hd.
  destruct (resizeTimeout t) as [h|] eqn:Hh.
  - destruct (Nat.eqb_spec h 0) as [->|Hh0].
    + apply Hnone. intros x Hx H100. apply Hd in H100; [|exact Hx].
      injection H100 as H0. specialize (Hb x Hx). lia.
    + apply Hnone. simpl. intros x Hx H100.
      apply filter_In in Hx as [Hx Hne]. apply Hd in H100; [|exact Hx].
      injection H100 as ->. now rewrite Nat.eqb_refl in Hne.
  - apply Hnone. intros x Hx H100. apply Hd in H100; [discriminate|exact Hx].
Qed.

Lemma clear_resizeTimeout_retries (t : Timers) :
  timers_ok t -> retries (clear_resizeTimeout t) = retries t.
Proof.
  intros (Hn & Hnd & Hb & Hr & Hd). unfold retries, clear_resizeTimeout.
  destruct (resizeTimeout t) as [h|] eqn:Hh; [|reflexivity].
  destruct (h =? 0)%nat; [reflexivity|]. simpl.
  induction (pending t) as [|x l IH]; [reflexivity|].
  inversion Hd as [|? ? Hx Hl]; subst. inversion Hb as [|? ? _ Hbl]; subst.
  apply NoDup_cons_1_2 in Hnd as Hndl. simpl.
  destruct (Nat.eqb_spec x.1 h) as [Heq|Hne]; simpl.
  - assert (H100 : x.2 = 100) by (apply Hx; now rewrite Heq).
    rewrite H100. simpl. now apply IH.
  - destruct (x.2 =? 100); simpl; [|f_equal]; now apply IH.
Qed.

Lemma onMutation_ok (t : Timers) :
  timers_ok t ->
  timers_ok (onMutation t) /\ debounced (onMutation t) = [(nextTimer t, 100)].
Proof.
  intros Hok.
  assert (Hok1 := timers_ok_clear_resizeTimeout t Hok).
  assert (Hnone := clear_resizeTimeout_no_debounced t Hok).
  assert (Hnext : nextTimer (clear_resizeTimeout t) = nextTimer t).
  { unfold clear_resizeTimeout. destruct (resizeTimeout t) as [h|]; [|reflexivity].
    now destruct (h =? 0)%nat. }
  destruct Hok1 as (Hn & Hnd & Hb & Hr & Hd).
  unfold onMutation, setTimeout. cbn [fst snd pending nextTimer]. split.
  - unfold timers_ok. cbn [resizeTimeout pending nextTimer].
    split; [lia|]. split; [|split; [|split]].
    + rewrite map_app. simpl. apply NoDup_app. split; [exact Hnd|].
      split; [|apply NoDup_singleton].
      intros h Hin Hin'. apply list_elem_of_In in Hin. apply list_elem_of_singleton in Hin'.
      apply in_map_iff in Hin as (x & Hx & Hinx).
      rewrite List.Forall_forall in Hb. specialize (Hb x Hinx). lia.
    + apply Forall_app. split.
      * eapply Forall_impl; [exact Hb|]. simpl. intros x Hx. lia.
      * constructor; [simpl; lia|constructor].
    + intros h [= <-]. lia.
    + apply Forall_app. split.
      * rewrite List.Forall_forall in Hb |- *. intros x Hx. split.
        -- intros H100. exfalso.
           assert (Hin : In x (debounced (clear_resizeTimeout t))).
           { unfold debounced. apply filter_In. split; [exact Hx|]. now apply Z.eqb_eq. }
           rewrite Hnone in Hin. destruct Hin.
        -- intros [= Heq]. specialize (Hb x Hx). lia.
      * constructor; [|constructor]. simpl. split; reflexivity.
  - unfold debounced in *. cbn [pending]. rewrite List.filter_app, Hnone, Hnext. reflexivity.
Qed.

Lemma debounced_at_most_one (t : Timers) :
  timers_ok t -> (length (debounced t) <= 1)%nat.
Proof.
  intros (Hn & Hnd & Hb & Hr & Hd).
  assert (Hnd' := NoDup_map_filter fst (fun x => x.2 =? 100) _ Hnd).
  fold (debounced t) in Hnd'.
  assert (Hall : forall x, In x (debounced t) -> resizeTimeout t = Some x.1).
  { intros x Hx. apply filter_In in Hx as [Hx H100]. apply Z.eqb_eq in H100.
    rewrite List.Forall_forall in Hd. now apply Hd. }
  destruct (debounced t) as [|x [|y l]]; simpl; try lia.
  exfalso. assert (Hxy : x.1 = y.1).
  { assert (Hx := Hall x (or_introl eq_refl)).
    assert (Hy := Hall y (or_intror (or_introl eq_refl))). congruence. }
  simpl in Hnd'. apply NoDup_cons_1_1 in Hnd'. apply Hnd'. rewrite Hxy. left.
Qed.

Lemma step_timers_ok (p : Props) (ld : Loader) (w : Widget) (ev : Event) :
  timers_ok (timers w) -> timers_ok (timers (step p ld w ev)).
Proof.
  intros Hok. destruct ev as [newSrc| | |o|h|e|ev|]; simpl.
  - unfold srcChanged, setIframeSrc.
    destruct (from_option string_truthy false newSrc); [|exact Hok].
    cbn [src]. destruct (isUrl newSrc); exact Hok.
  - unfold observeIframeContent. destruct (iframe (state w)) as [f|]; [|exact Hok].
    destruct (read_document f) as [[doc|]|]; try exact Hok.
    destruct (body doc); [|exact Hok]. simpl. now apply timers_ok_scheduleRetries.
  - destruct (resizeSameOrigin (state w)); exact Hok.
  - destruct (existsb _ _); [|exact Hok]. simpl. now apply onMutation_ok.
  - unfold expire. destruct (existsb _ _); [|exact Hok].
    destruct (resizeSameOrigin _); simpl; now apply timers_ok_clearTimeout.
  - destruct (messageListener w); exact Hok.
  - exact Hok.
  - now apply timers_ok_clear_resizeTimeout.
Qed.

Lemma run_timers_ok (p : Props) (ld : Loader) (evs : list Event) (w : Widget) :
  timers_ok (timers w) -> timers_ok (timers (run p ld w evs)).
Proof.
  unfold run. revert w. induction evs as [|ev evs IH]; intros w Hok; [exact Hok|].
  simpl. apply IH. now apply step_timers_ok.
Qed.

(** X23.  The resize after mutations is debounced: whatever happens to
    the component (source changes, loads, animation frames, mutations,
    timers expiring, messages, drags, destruction), at most one debounced
    resize is pending
    at any time, and each mutation reported by a connected observer cancels
    the pending one and schedules a fresh one. *)
Theorem mutations_are_debounced (p : Props) (ld : Loader) (w : Widget) (evs : list Event) :
  timers_ok (timers w) ->
  let w' := run p ld w evs in
  (length (debounced (timers w')) <= 1)%nat /\
  (forall o, In o (observing (observers w')) ->
             debounced (timers (step p ld w' (Mutated o)))
             = [(nextTimer (timers w'), 100)]).
Proof.
  intros Hok w'. assert (Hok' : timers_ok (timers w')) by now apply run_timers_ok.
  split; [now apply debounced_at_most_one|].
  intros o Ho. simpl.
  assert (He : existsb (Nat.eqb o) (observing (observers w')) = true).
  { apply existsb_exists. exists o. split; [exact Ho|apply Nat.eqb_refl]. }
  rewrite He. simpl. now apply onMutation_ok.
Qed.

Lemma mutations_are_debounced_witness :
  timers_ok (timers observed_widget) /\
  (length (debounced (timers (run defaultProps loader_ok observed_widget
                                [Mutated 0%nat; Mutated 0%nat; Loaded; Mutated 0%nat])))
   <= 1)%nat.
Proof.
  assert (H : timers_ok (timers observed_widget)).
  { unfold timers_ok. simpl. repeat split; try lia; try constructor. discriminate. }
  split; [exact H|].
  apply (mutations_are_debounced defaultProps loader_ok observed_widget
           [Mutated 0%nat; Mutated 0%nat; Loaded; Mutated 0%nat] H).
Defined.

(** X24.  [onDestroy] releases what the component held: the message
    listener and the two document listeners are removed, so later messages,
    mouse moves and mouse releases change nothing; the current observer is
    disconnected; the pending debounced resize is cancelled.  It does not
    cancel the retry timers scheduled on load, and it does not end a drag in
    progress: [isDragging] and the body styles set by [onDragStart] stay as
    they are. *)
Theorem onDestroy_releases (p : Props) (ld : Loader) (w : Widget) :
  timers_ok (timers w) ->
  let w' := onDestroy w in
  messageListener w' = false /\ documentListeners (state w') = false /\
  (forall e, step p ld w' (Message e) = w') /\
  (forall e, step p ld w' (Drag (MouseMove e)) = w') /\
  step p ld w' (Drag MouseUp) = w' /\
  (forall o, observerInstance (observers w) = Some o ->
             ~ In o (observing (observers w')) /\ step p ld w' (Mutated o) = w') /\
  debounced (timers w') = [] /\
  retries (timers w') = retries (timers w) /\
  isDragging (state w') = isDragging (state w) /\
  bodyUserSelect (state w') = bodyUserSelect (state w) /\
  bodyCursor (state w') = bodyCursor (state w).
Proof.
  intros Hok w'.
  split; [reflexivity|]. split; [reflexivity|].
  split; [intros e; reflexivity|]. split; [intros e; reflexivity|].
  split; [reflexivity|]. split; [|split; [|split; [|repeat split]]].
  - intros o Ho. unfold w'. simpl. rewrite Ho.
    assert (Hnot := disconnect_not_observing o (observers w)).
    split; [exact Hnot|].
    assert (He : existsb (Nat.eqb o) (observing (disconnect o (observers w))) = false).
    { apply not_true_is_false. intros He. apply existsb_exists in He as (x & Hx & Heq).
      apply Nat.eqb_eq in Heq. subst x. now apply Hnot. }
    now rewrite He.
  - now apply clear_resizeTimeout_no_debounced.
  - now apply clear_resizeTimeout_retries.
Qed.

Lemma onDestroy_releases_witness :
  timers_ok (timers observed_widget) /\
  step defaultProps loader_ok (onDestroy observed_widget)
    (Message {| source := None;
                data := VObject [("type", VString "iframe:height");
                                 ("height", VNumber (Finite 900))] |})
  = onDestroy observed_widget.
Proof.
  assert (H : timers_ok (timers observed_widget)).
  { unfold timers_ok. simpl. repeat split; try lia; try constructor. discriminate. }
  split; [exact H|].
  destruct (onDestroy_releases defaultProps loader_ok observed_widget H)
    as (_ & _ & Hmsg & _).
  apply Hmsg.
Defined.

End Debounce.
